(** * RAG_Context: the question-answering loop of [indexing.js]

    A shallow embedding of the query phase of [indexing.js] (the history
    buffer, [formatHistory], [chatting] and the read-eval loop of [main]),
    followed by the properties of the specification that concern them.

    Conventions.
    - A JavaScript string is a [string]: a sequence of code units, here the
      code units [U+0000 .. U+00FF].  [toLowerCase] and [trim] are the
      JavaScript functions restricted to that range.
    - The embedding provider, the vector index, the chat model and the clock
      are external: they are fields of an environment [Env], each call
      either returning a value or throwing an [Error].
    - Calls to the external services and console output are recorded, in
      order, in the [trace] of the program state.
    - [main] and [loopBody] take the lines as [readlineSync.question]
      returns them; [readlineSyncQuestion] and [mainTyped] relate them to
      the lines as typed. *)

From Stdlib Require Import String Ascii List Arith Bool Lia DecimalString.
Import ListNotations.

Local Open Scope string_scope.
Local Open Scope list_scope.
Local Open Scope nat_scope.

Set Implicit Arguments.

(** ** Strings *)

Module Js.

(** The line feed, written [\n] in the source. *)
Definition nl : string := String "010"%char EmptyString.

(** The double quote. *)
Definition dq : string := String "034"%char EmptyString.

(** [String(n)] for a natural number [n] (template literal [${index + 1}]). *)
Definition ofNat (n : nat) : string := NilZero.string_of_uint (Nat.to_uint n).

(** [s.length === 0], and the truthiness of a string: non-empty. *)
Definition isEmpty (s : string) : bool :=
  match s with EmptyString => true | String _ _ => false end.

Definition truthy (s : string) : bool := negb (isEmpty s).

(** [a || b] on strings. *)
Definition or (a b : string) : string := if truthy a then a else b.

(** [xs.join(sep)] on an array of strings. *)
Definition join (sep : string) (xs : list string) : string :=
  String.concat sep xs.

(** [xs.map((x, index) => f x index)]. *)
Fixpoint mapiFrom {A B} (f : A -> nat -> B) (i : nat) (xs : list A) : list B :=
  match xs with
  | [] => []
  | x :: xs' => f x i :: mapiFrom f (S i) xs'
  end.

Definition mapi {A B} (f : A -> nat -> B) (xs : list A) : list B :=
  mapiFrom f 0 xs.

(** [c.toLowerCase()] on one code unit below [U+0100]: [A-Z] and the
    Latin-1 capitals [U+00C0 .. U+00DE] (but the multiplication sign
    [U+00D7]) move up by 32. *)
Definition lowerChar (c : ascii) : ascii :=
  let n := nat_of_ascii c in
  if ((65 <=? n) && (n <=? 90))
     || ((192 <=? n) && (n <=? 222) && negb (n =? 215))
  then ascii_of_nat (n + 32)
  else c.

Fixpoint toLowerCase (s : string) : string :=
  match s with
  | EmptyString => EmptyString
  | String c s' => String (lowerChar c) (toLowerCase s')
  end.

(** White space and line terminators below [U+0100]: TAB, LF, VT, FF, CR,
    SP and NBSP. *)
Definition isWhiteSpace (c : ascii) : bool :=
  let n := nat_of_ascii c in
  ((9 <=? n) && (n <=? 13)) || (n =? 32) || (n =? 160).

Fixpoint trimStart (s : string) : string :=
  match s with
  | EmptyString => EmptyString
  | String c s' => if isWhiteSpace c then trimStart s' else s
  end.

(** [trimEnd]: a white-space character is dropped when all that follows
    it has been dropped. *)
Fixpoint trimEnd (s : string) : string :=
  match s with
  | EmptyString => EmptyString
  | String c s' =>
      match trimEnd s' with
      | EmptyString => if isWhiteSpace c then EmptyString else String c EmptyString
      | t => String c t
      end
  end.

Definition trim (s : string) : string := trimEnd (trimStart s).

(** A string of white space only. *)
Fixpoint allWhiteSpace (s : string) : bool :=
  match s with
  | EmptyString => true
  | String c s' => isWhiteSpace c && allWhiteSpace s'
  end.

End Js.

(** ** Data model *)

(** An entry of [conversationHistory]. *)
Record ConversationTurn : Type := mkTurn {
  question : string;
  answer : string;
  timestamp : string;
}.

(** The metadata of a match; [text] may be absent. *)
Record Metadata : Type := mkMetadata {
  text : option string;
}.

(** A match returned by the index.  Only [metadata] is read by the program;
    it may be absent. *)
Record SearchMatch : Type := mkMatch {
  metadata : option Metadata;
}.

(** The response of [pineconeIndex.query]; [matches] may be absent. *)
Record SearchResults : Type := mkResults {
  matches : option (list SearchMatch);
}.

(** A thrown [Error]; only its [message] is read. *)
Record JsError : Type := mkError {
  message : string;
}.

(** The outcome of a call that may throw. *)
Inductive Completion (A : Type) : Type :=
| Normal (a : A)
| Throw (e : JsError).
Arguments Normal {A} a.
Arguments Throw {A} e.

(** The argument of [chain.invoke]. *)
Record ChainInput : Type := mkInput {
  context : string;
  inputQuestion : string;
  history : string;
}.

(** ** Constants *)

(** The parameters handed to the text splitter of the upload phase; the
    splitter itself is a library outside this program. *)
Definition CHUNK_SIZE : nat := 1000.
Definition CHUNK_OVERLAP : nat := 200.

(** The capacity of the history buffer (the literal [5] of [chatting]). *)
Definition HISTORY_LIMIT : nat := 5.

(** The separator of the context string, ["\n\n---\n\n"]. *)
Definition CONTEXT_SEPARATOR : string :=
  Js.nl ++ Js.nl ++ "---" ++ Js.nl ++ Js.nl.

(** The value of [formatHistory] on an empty buffer. *)
Definition NO_HISTORY : string := "No previous conversation.".

(** ** The history buffer *)

(** One entry of the transcript:
    [`[Turn ${index + 1}]\nUser: ${entry.question}\nAssistant: ${entry.answer}`]. *)
Definition formatEntry (entry : ConversationTurn) (index : nat) : string :=
  "[Turn " ++ Js.ofNat (index + 1) ++ "]" ++ Js.nl
  ++ "User: " ++ question entry ++ Js.nl
  ++ "Assistant: " ++ answer entry.

(** [formatHistory()], reading the buffer [conversationHistory]. *)
Definition formatHistory (conversationHistory : list ConversationTurn) : string :=
  if length conversationHistory =? 0 then NO_HISTORY
  else Js.join (Js.nl ++ Js.nl) (Js.mapi formatEntry conversationHistory).

(** [conversationHistory.push(turn)]. *)
Definition push (turn : ConversationTurn) (h : list ConversationTurn)
  : list ConversationTurn := h ++ [turn].

(** [conversationHistory.shift()]: removes the first entry. *)
Definition shift (h : list ConversationTurn) : list ConversationTurn := tl h.

(** The end of [chatting]: push, then shift when more than five are held. *)
Definition appendTurn (turn : ConversationTurn) (h : list ConversationTurn)
  : list ConversationTurn :=
  let h1 := push turn h in
  if HISTORY_LIMIT <? length h1 then shift h1 else h1.

(** [conversationHistory.length = 0]. *)
Definition clearHistory (h : list ConversationTurn) : list ConversationTurn := [].

(** ** Console output and calls to the outside *)

(** The messages written by [console.log] and [console.error], one
    constructor per call site of the query phase. *)
Inductive Message : Type :=
| MsgProcessing            (* 'Processing your question...' *)
| MsgCreatingEmbedding     (* 'Creating embedding...' *)
| MsgEmbeddingCreated      (* 'Embedding created' *)
| MsgSearching             (* 'Searching Pinecone...' *)
| MsgFound (n : nat)       (* `Found ${searchResults.matches.length} relevant documents` *)
| MsgNoRelevantDocuments   (* 'No relevant documents found in database.
                              Please check if documents were uploaded.' *)
| MsgNoTextContent         (* 'No text content found in search results.' *)
| MsgAsking                (* 'Asking AI...' *)
| MsgResponseReceived      (* 'Response received' *)
| MsgAnswer (a : string)   (* `${answer}\n` *)
| MsgErrorDuringChatting (m : string)
                           (* console.error('Error during chatting:', error.message) *)
| MsgReady                 (* '=== RAG Chat Bot Ready ===' *)
| MsgUsage                 (* 'Type ... to quit, ... to see conversation history, ...' *)
| MsgGoodbye               (* 'Goodbye!' *)
| MsgHistoryHeader         (* '=== Conversation History ===' *)
| MsgHistory (transcript : string)
                           (* formatHistory() || 'No history yet.' *)
| MsgHistoryFooter         (* '===========================' *)
| MsgHistoryCleared.       (* 'History cleared!' *)

Section Program.

(** The type of embedding vectors; the program only passes them on. *)
Variable Vector : Type.

(** What the program does to the outside, in order. *)
Inductive Event : Type :=
| Log (m : Message)
| ReadLine (line : string)                    (* readlineSync.question *)
| EmbedQuery (q : string)                     (* embeddings.embedQuery *)
| IndexQuery (topK : nat) (v : Vector)        (* pineconeIndex.query *)
| ChainInvoke (input : ChainInput).           (* chain.invoke *)

(** The configuration and the external services while one line is served. *)
Record Env : Type := mkEnv {
  USE_OLLAMA : bool;
  embedQuery : string -> Completion Vector;
  indexQuery : nat -> Vector -> Completion SearchResults;
  (** the chat model followed by the output parser, on the rendered prompt *)
  model : string -> Completion string;
  (** [new Date().toISOString()] *)
  now : string;
}.

Definition TOP_K_RESULTS (env : Env) : nat := if USE_OLLAMA env then 3 else 5.

(** The program state: the global [conversationHistory] and the trace. *)
Record State : Type := mkState {
  conversationHistory : list ConversationTurn;
  trace : list Event;
}.

(** *** A state and exception monad for the body of [try] *)

Definition M (A : Type) : Type := State -> Completion A * State.

Definition ret {A} (a : A) : M A := fun s => (Normal a, s).

Definition bind {A B} (c : M A) (k : A -> M B) : M B :=
  fun s =>
    match c s with
    | (Normal a, s') => k a s'
    | (Throw e, s') => (Throw e, s')
    end.

Definition throw {A} (e : JsError) : M A := fun s => (Throw e, s).

Definition record (ev : Event) (s : State) : State :=
  mkState (conversationHistory s) (trace s ++ [ev]).

Definition log (m : Message) : M unit := fun s => (Normal tt, record (Log m) s).

(** A call to the outside: recorded, then it returns or throws. *)
Definition call {A} (ev : Event) (r : Completion A) : M A :=
  fun s => (r, record ev s).

Definition getHistory : M (list ConversationTurn) :=
  fun s => (Normal (conversationHistory s), s).

Definition setHistory (h : list ConversationTurn) (s : State) : State :=
  mkState h (trace s).

Definition modifyHistory (f : list ConversationTurn -> list ConversationTurn)
  : M unit :=
  fun s => (Normal tt, setHistory (f (conversationHistory s)) s).

End Program.

Arguments Log {Vector} m.
Arguments ReadLine {Vector} line.
Arguments EmbedQuery {Vector} q.
Arguments ChainInvoke {Vector} input.
Arguments getHistory {Vector}.
Arguments throw {Vector A} e.
Arguments ret {Vector A} a.
Arguments log {Vector} m.

Notation "x <- c1 ;; c2" := (bind c1 (fun x => c2))
  (at level 61, c1 at next level, right associativity).
Notation "c1 ;; c2" := (bind c1 (fun _ => c2))
  (at level 61, right associativity).

(** ** The retrieval-and-answer operation *)

(** [match.metadata?.text || ''] *)
Definition matchText (m : SearchMatch) : string :=
  match metadata m with
  | Some md =>
      match text md with
      | Some t => Js.or t EmptyString
      | None => EmptyString
      end
  | None => EmptyString
  end.

(** [matches.map(...).filter(text => text.length > 0).join("\n\n---\n\n")] *)
Definition buildContext (ms : list SearchMatch) : string :=
  Js.join CONTEXT_SEPARATOR
    (filter (fun t => 0 <? String.length t) (map matchText ms)).

(** The prompt template of [chatting] with its three variables filled in. *)
Definition renderPrompt (input : ChainInput) : string :=
  (Js.nl
   ++ "You are a helpful assistant answering questions based on the provided documentation."
   ++ Js.nl ++ Js.nl
   ++ "Previous Conversation History:" ++ Js.nl
   ++ history input ++ Js.nl ++ Js.nl
   ++ "Context from the documentation:" ++ Js.nl
   ++ context input ++ Js.nl ++ Js.nl
   ++ "Current Question: " ++ inputQuestion input ++ Js.nl ++ Js.nl
   ++ "Instructions:" ++ Js.nl
   ++ "- Answer the question using the information from the context above" ++ Js.nl
   ++ "- Consider the conversation history to provide contextually relevant answers" ++ Js.nl
   ++ "- If referring to something from previous conversation, acknowledge it" ++ Js.nl
   ++ "- If the answer is not in the context, say " ++ Js.dq
   ++ "I don't have enough information to answer that question." ++ Js.dq ++ Js.nl
   ++ "- Be concise and clear" ++ Js.nl
   ++ "- Use code examples from the context if relevant" ++ Js.nl ++ Js.nl
   ++ "Answer:" ++ Js.nl
   ++ "        ")%string.

(** The [TypeError] of reading [.length] of an absent [matches]. *)
Definition LENGTH_OF_UNDEFINED : JsError :=
  mkError "Cannot read properties of undefined (reading 'length')".

Section Chatting.

Variable Vector : Type.

(** The body of the [try] of [chatting]. *)
Definition tryChatting (env : Env Vector) (question : string) : M Vector unit :=
  log MsgProcessing ;;
  log MsgCreatingEmbedding ;;
  queryVector <- call (EmbedQuery question) (embedQuery env question) ;;
  log MsgEmbeddingCreated ;;
  log MsgSearching ;;
  searchResults <- call (IndexQuery (TOP_K_RESULTS env) queryVector)
                        (indexQuery env (TOP_K_RESULTS env) queryVector) ;;
  (* [searchResults.matches.length] throws when [matches] is absent, so
     [!searchResults.matches] is false where it is tested *)
  ms <- match matches searchResults with
        | Some ms => ret ms
        | None => throw LENGTH_OF_UNDEFINED
        end ;;
  log (MsgFound (length ms)) ;;
  if length ms =? 0 then
    log MsgNoRelevantDocuments
  else
    let context := buildContext ms in
    if negb (Js.truthy context) then
      log MsgNoTextContent
    else
      h <- getHistory ;;
      let historyContext := formatHistory h in
      log MsgAsking ;;
      let input := mkInput context question historyContext in
      answer <- call (ChainInvoke input) (model env (renderPrompt input)) ;;
      log MsgResponseReceived ;;
      log (MsgAnswer answer) ;;
      modifyHistory (push (mkTurn question answer (now env))) ;;
      h' <- getHistory ;;
      if 5 <? length h' then modifyHistory shift else ret tt.

(** [chatting(question)]: the [try] body, and the [catch] that logs the
    message of what was thrown. *)
Definition chatting (env : Env Vector) (question : string) (s : State Vector)
  : State Vector :=
  match tryChatting env question s with
  | (Normal _, s') => s'
  | (Throw error, s') => record (Log (MsgErrorDuringChatting (message error))) s'
  end.

(** ** The read-eval loop of [main] *)

Inductive Flow : Type := Continue | Break.

(** One turn of [while (true)], after [userProblem] has been read. *)
Definition loopBody (env : Env Vector) (userProblem : string)
  (s : State Vector) : Flow * State Vector :=
  if (Js.toLowerCase userProblem =? "exit")%string then
    (Break, record (Log MsgGoodbye) s)
  else if (Js.toLowerCase userProblem =? "history")%string then
    (Continue,
     record (Log MsgHistoryFooter)
       (record (Log (MsgHistory
                       (Js.or (formatHistory (conversationHistory s))
                              "No history yet.")))
          (record (Log MsgHistoryHeader) s)))
  else if (Js.toLowerCase userProblem =? "clear")%string then
    (Continue,
     record (Log MsgHistoryCleared)
       (setHistory (clearHistory (conversationHistory s)) s))
  else if Js.truthy (Js.trim userProblem) then
    (Continue, chatting env userProblem s)
  else
    (Continue, s).

(** The loop over the lines read, each with the services as they are
    while it is served; it stops at the first [break]. *)
Fixpoint mainLoop (inputs : list (Env Vector * string)) (s : State Vector)
  : State Vector :=
  match inputs with
  | [] => s
  | (env, userProblem) :: rest =>
      match loopBody env userProblem (record (ReadLine userProblem) s) with
      | (Break, s') => s'
      | (Continue, s') => mainLoop rest s'
      end
  end.

(** The state in which [main] is entered. *)
Definition initialState : State Vector := mkState [] [].

Definition main (inputs : list (Env Vector * string)) : State Vector :=
  mainLoop inputs
    (record (Log MsgUsage) (record (Log MsgReady) initialState)).

End Chatting.

(** ** Definitions used by the statements *)

(** The events of [chatting] up to and including the call to the index. *)
Definition searchEvents {Vector} (env : Env Vector) (q : string) (v : Vector)
  : list (Event Vector) :=
  [Log MsgProcessing; Log MsgCreatingEmbedding; EmbedQuery q;
   Log MsgEmbeddingCreated; Log MsgSearching;
   IndexQuery (TOP_K_RESULTS env) v].

(** The inputs of the calls to [chain.invoke] recorded in a trace. *)
Fixpoint chainInvocations {Vector} (evs : list (Event Vector)) : list ChainInput :=
  match evs with
  | [] => []
  | ChainInvoke input :: evs' => input :: chainInvocations evs'
  | _ :: evs' => chainInvocations evs'
  end.

(** The calls to the embedder, the index and the chain recorded in a trace. *)
Definition isServiceCall {Vector} (ev : Event Vector) : bool :=
  match ev with
  | EmbedQuery _ | IndexQuery _ _ | ChainInvoke _ => true
  | Log _ | ReadLine _ => false
  end.

Definition serviceCalls {Vector} (evs : list (Event Vector)) : list (Event Vector) :=
  filter isServiceCall evs.

(** Appending a sequence of turns, one after the other. *)
Definition appendAll (turns h : list ConversationTurn) : list ConversationTurn :=
  fold_left (fun buffer turn => appendTurn turn buffer) turns h.

(** The last [n] elements of a list. *)
Definition lastn {A} (n : nat) (l : list A) : list A := skipn (length l - n) l.

(** The transcript as the specification words it: the entries in order,
    numbered from [n], a blank line between two entries. *)
Definition transcriptEntry (n : nat) (t : ConversationTurn) : string :=
  ("[Turn " ++ Js.ofNat n ++ "]" ++ Js.nl
   ++ "User: " ++ question t ++ Js.nl
   ++ "Assistant: " ++ answer t)%string.

Fixpoint numberedTranscript (n : nat) (h : list ConversationTurn) : string :=
  match h with
  | [] => EmptyString
  | t :: rest =>
      match rest with
      | [] => transcriptEntry n t
      | _ :: _ =>
          (transcriptEntry n t ++ Js.nl ++ Js.nl
           ++ numberedTranscript (S n) rest)%string
      end
  end.

(** The number of times [chatting] was entered: each entry starts by
    logging [MsgProcessing], which is logged nowhere else. *)
Definition isRetrieval {Vector} (ev : Event Vector) : bool :=
  match ev with
  | Log MsgProcessing => true
  | _ => false
  end.

Definition retrievals {Vector} (evs : list (Event Vector)) : nat :=
  length (filter isRetrieval evs).

(** The reserved commands, as [main] compares them. *)
Definition isReserved (line : string) : bool :=
  ((Js.toLowerCase line =? "exit") || (Js.toLowerCase line =? "history")
   || (Js.toLowerCase line =? "clear"))%string.

(** [chatting] answers [q] with [a] when the history is [h]: the three
    calls return and the context is not empty. *)
Definition Answers {Vector} (env : Env Vector) (q : string)
  (h : list ConversationTurn) (a : string) : Prop :=
  exists v r ms,
    embedQuery env q = Normal v /\
    indexQuery env (TOP_K_RESULTS env) v = Normal r /\
    matches r = Some ms /\
    Js.truthy (buildContext ms) = true /\
    model env (renderPrompt (mkInput (buildContext ms) q (formatHistory h)))
    = Normal a.

(** A step of [chatting] throws [e]: the embedder, the index, or the chat
    model once it is reached. *)
Definition Raises {Vector} (env : Env Vector) (q : string)
  (h : list ConversationTurn) (e : JsError) : Prop :=
  embedQuery env q = Throw e \/
  (exists v,
      embedQuery env q = Normal v /\
      indexQuery env (TOP_K_RESULTS env) v = Throw e) \/
  (exists v r ms,
      embedQuery env q = Normal v /\
      indexQuery env (TOP_K_RESULTS env) v = Normal r /\
      matches r = Some ms /\
      Js.truthy (buildContext ms) = true /\
      model env (renderPrompt (mkInput (buildContext ms) q (formatHistory h)))
      = Throw e).

(** The non-empty chunk texts of the matches, in the order of the list. *)
Fixpoint chunkTexts (ms : list SearchMatch) : list string :=
  match ms with
  | [] => []
  | m :: rest =>
      match metadata m with
      | Some (mkMetadata (Some (String c t))) => String c t :: chunkTexts rest
      | _ => chunkTexts rest
      end
  end.

(** Strings put one after the other with [sep] between two of them. *)
Fixpoint separatedBy (sep : string) (xs : list string) : string :=
  match xs with
  | [] => EmptyString
  | x :: rest =>
      match rest with
      | [] => x
      | _ :: _ => (x ++ sep ++ separatedBy sep rest)%string
      end
  end.

(** A match without text: no metadata, no [text] field, or an empty one. *)
Definition hasNoText (m : SearchMatch) : bool :=
  match metadata m with
  | None => true
  | Some md =>
      match text md with
      | None => true
      | Some t => Js.isEmpty t
      end
  end.

(** Questions asked one after the other. *)
Definition chatAll {Vector} (asks : list (Env Vector * string))
  (s : State Vector) : State Vector :=
  fold_left (fun s' ask => chatting (fst ask) (snd ask) s') asks s.

(** The turn stored for a question [q] answered by [a] under [env]. *)
Definition runTurn {Vector} (x : Env Vector * string * string)
  : ConversationTurn :=
  mkTurn (snd (fst x)) (snd x) (now (fst (fst x))).

(** Every question of the run is answered, each with the history left by
    those before it. *)
Fixpoint AllAnswered {Vector} (run : list (Env Vector * string * string))
  (h : list ConversationTurn) : Prop :=
  match run with
  | [] => True
  | x :: rest =>
      Answers (fst (fst x)) (snd (fst x)) h (snd x)
      /\ AllAnswered rest (appendTurn (runTurn x) h)
  end.

Module Sample.

Definition Vector : Type := list nat.

Definition chunk (t : string) : SearchMatch :=
  mkMatch (Some (mkMetadata (Some t))).

Definition noMetadata : SearchMatch := mkMatch None.

Definition failure : JsError := mkError "fetch failed".

Definition clock : string := "2024-01-01T00:00:00.000Z".

(** Services that all return: the index returns [found]. *)
Definition env (found : option (list SearchMatch)) : Env Vector :=
  mkEnv false
    (fun _ => Normal [1; 2; 3])
    (fun _ _ => Normal (mkResults found))
    (fun _ => Normal "An answer."%string)
    clock.

Definition envEmbedderDown : Env Vector :=
  mkEnv false
    (fun _ => Throw failure)
    (fun _ _ => Normal (mkResults (Some [chunk "a"])))
    (fun _ => Normal "An answer."%string)
    clock.

Definition envModelDown : Env Vector :=
  mkEnv true
    (fun _ => Normal [1; 2; 3])
    (fun _ _ => Normal (mkResults (Some [chunk "a"; chunk "b"])))
    (fun _ => Throw failure)
    clock.

Definition start : State Vector := initialState Vector.

Definition ask (q : string) : Env Vector * string * string :=
  (env (Some [chunk "a"; noMetadata; chunk "b"]), q, "An answer."%string).

End Sample.

(** ** The upload phase and the whole program *)

(** The path handed to the PDF loader. *)
Definition PDF_PATH : string := "./sample-report.pdf".

(** The messages of the upload phase, one constructor per call site. *)
Inductive UploadMessage : Type :=
| MsgStartingUpload         (* 'Starting document upload process...' *)
| MsgLoaded (pages : nat)   (* `Loaded ${rawDocs.length} pages from PDF` *)
| MsgCreated (chunks : nat) (* `Created ${chunkedDocs.length} chunks` *)
| MsgUploading              (* 'Uploading to Pinecone (this may take a minute)...' *)
| MsgUploadComplete         (* 'Upload complete!' *)
| MsgUploadError (m : string)
                            (* console.error(' Error during upload:', error.message) *)
| MsgFullError (e : JsError)
                            (* console.error('Full error:', error) *)
| MsgSkipping               (* 'Skipping upload (UPLOAD_TO_PINECONE not set to true)' *)
| MsgUsingExisting.         (* 'Using existing documents in Pinecone...' *)

Section Upload.

(** The type of documents (pages, chunks); the program only counts them
    and passes them on. *)
Variable Doc : Type.

(** What the upload phase does to the outside, in order. *)
Inductive UploadEvent : Type :=
| ULog (m : UploadMessage)
| LoadPdf (path : string)                                   (* pdfLoader.load *)
| SplitDocuments (chunkSize chunkOverlap : nat) (docs : list Doc)
                                                            (* textSplitter.splitDocuments *)
| FromDocuments (docs : list Doc) (maxConcurrency : nat).   (* PineconeStore.fromDocuments *)

(** The upload flag and the three libraries of the upload phase, once the
    clients of the head of the file have been constructed. *)
Record UploadEnv : Type := mkUploadEnv {
  SHOULD_UPLOAD : bool;
  load : string -> Completion (list Doc);
  splitDocuments : nat -> nat -> list Doc -> Completion (list Doc);
  fromDocuments : list Doc -> nat -> Completion unit;
}.

(** The [catch] of the upload phase: two messages, then [process.exit(1)]. *)
Definition uploadFailed (evs : list UploadEvent) (error : JsError)
  : list UploadEvent * option nat :=
  (evs ++ [ULog (MsgUploadError (message error)); ULog (MsgFullError error)],
   Some 1).

(** [if (SHOULD_UPLOAD) { try { ... } catch { ... } } else { ... }]: the
    events, and the exit code when the process is ended. *)
Definition uploadPhase (u : UploadEnv) : list UploadEvent * option nat :=
  if SHOULD_UPLOAD u then
    let evs0 := [ULog MsgStartingUpload; LoadPdf PDF_PATH] in
    match load u PDF_PATH with
    | Throw error => uploadFailed evs0 error
    | Normal rawDocs =>
        let evs1 :=
          evs0 ++ [ULog (MsgLoaded (length rawDocs));
                   SplitDocuments CHUNK_SIZE CHUNK_OVERLAP rawDocs] in
        match splitDocuments u CHUNK_SIZE CHUNK_OVERLAP rawDocs with
        | Throw error => uploadFailed evs1 error
        | Normal chunkedDocs =>
            let evs2 :=
              evs1 ++ [ULog (MsgCreated (length chunkedDocs));
                       ULog MsgUploading; FromDocuments chunkedDocs 5] in
            match fromDocuments u chunkedDocs 5 with
            | Throw error => uploadFailed evs2 error
            | Normal _ => (evs2 ++ [ULog MsgUploadComplete], None)
            end
        end
    end
  else
    ([ULog MsgSkipping; ULog MsgUsingExisting], None).

(** The calls to the three libraries recorded in a trace. *)
Definition isUploadCall (ev : UploadEvent) : bool :=
  match ev with
  | ULog _ => false
  | LoadPdf _ | SplitDocuments _ _ _ | FromDocuments _ _ => true
  end.

Definition uploadCalls (evs : list UploadEvent) : list UploadEvent :=
  filter isUploadCall evs.

(** A step of the upload phase throws [e]. *)
Definition UploadRaises (u : UploadEnv) (e : JsError) : Prop :=
  SHOULD_UPLOAD u = true /\
  (load u PDF_PATH = Throw e \/
   (exists rawDocs,
       load u PDF_PATH = Normal rawDocs /\
       splitDocuments u CHUNK_SIZE CHUNK_OVERLAP rawDocs = Throw e) \/
   (exists rawDocs chunkedDocs,
       load u PDF_PATH = Normal rawDocs /\
       splitDocuments u CHUNK_SIZE CHUNK_OVERLAP rawDocs = Normal chunkedDocs /\
       fromDocuments u chunkedDocs 5 = Throw e)).

End Upload.

Arguments ULog {Doc} m.
Arguments LoadPdf {Doc} path.

(** A run of the file: the upload phase, then [main()] unless the process
    was ended. *)
Record Run (Doc Vector : Type) : Type := mkRun {
  uploadTrace : list (UploadEvent Doc);
  exitCode : option nat;
  chat : option (State Vector);
}.

Definition program {Doc Vector} (u : UploadEnv Doc)
  (inputs : list (Env Vector * string)) : Run Doc Vector :=
  match uploadPhase u with
  | (evs, Some code) => mkRun evs (Some code) None
  | (evs, None) => mkRun evs None (Some (main inputs))
  end.

(** The same turn with another time stamp. *)
Definition restamp (ts : string) (t : ConversationTurn) : ConversationTurn :=
  mkTurn (question t) (answer t) ts.

(** A line that [main] hands to [chatting]. *)
Definition isQuestion (line : string) : bool :=
  negb (isReserved line) && negb (Js.allWhiteSpace line).

(** The lines read up to the first [exit]. *)
Fixpoint hasExit {Vector} (inputs : list (Env Vector * string)) : bool :=
  match inputs with
  | [] => false
  | (_, line) :: rest =>
      (Js.toLowerCase line =? "exit")%string || hasExit rest
  end.

(** The calls [chatting] makes for [q] when the history is [h]: the
    embedder; the index when the embedder returned; the chain when the
    index returned matches with a non-empty context. *)
Definition expectedCalls {Vector} (env : Env Vector) (q : string)
  (h : list ConversationTurn) : list (Event Vector) :=
  EmbedQuery q ::
  match embedQuery env q with
  | Throw _ => []
  | Normal v =>
      IndexQuery (TOP_K_RESULTS env) v ::
      match indexQuery env (TOP_K_RESULTS env) v with
      | Throw _ => []
      | Normal r =>
          match matches r with
          | None => []
          | Some ms =>
              if Js.truthy (buildContext ms)
              then [ChainInvoke (mkInput (buildContext ms) q (formatHistory h))]
              else []
          end
      end
  end.

(** [readlineSync.question(...)] as [main] calls it, without options: the
    library's documented default [keepWhitespace: false] returns the typed
    line with the white space at both ends removed.  The library is not
    part of the program. *)
Definition readlineSyncQuestion (typed : string) : string := Js.trim typed.


(** The two messages of an answer cut short for want of documents: the one
    of an empty match list and the one of matches without text. *)
Definition reportsNoDocuments (m : Message) : bool :=
  match m with
  | MsgNoRelevantDocuments | MsgNoTextContent => true
  | _ => false
  end.

Module SampleUpload.

Definition Doc : Type := string.

Definition pages : list Doc := ["page one"; "page two"]%string.

Definition chunks : list Doc := ["page"; "one"; "page two"]%string.

Definition env (upload : bool) : UploadEnv Doc :=
  mkUploadEnv upload
    (fun _ => Normal pages)
    (fun _ _ _ => Normal chunks)
    (fun _ _ => Normal tt).

Definition envStoreDown : UploadEnv Doc :=
  mkUploadEnv true
    (fun _ => Normal pages)
    (fun _ _ _ => Normal chunks)
    (fun _ _ => Throw Sample.failure).

End SampleUpload.

(** * Properties *)

(** ** The history buffer *)

Section HistoryBuffer.

Implicit Types (h : list ConversationTurn) (t : ConversationTurn).

Lemma appendTurn_below h t :
  length h < HISTORY_LIMIT -> appendTurn t h = h ++ [t].
Proof.
  intros Hlen. unfold appendTurn, push.
  rewrite length_app; simpl.
  destruct (Nat.ltb_spec HISTORY_LIMIT (length h + 1)); [lia | reflexivity].
Qed.

Lemma appendTurn_full h t :
  HISTORY_LIMIT <= length h -> appendTurn t h = tl h ++ [t].
Proof.
  intros Hlen. unfold appendTurn, push, shift.
  rewrite length_app; simpl.
  destruct (Nat.ltb_spec HISTORY_LIMIT (length h + 1)); [| lia].
  destruct h; [simpl in Hlen; unfold HISTORY_LIMIT in Hlen; lia | reflexivity].
Qed.

Lemma appendTurn_length h t :
  length h <= HISTORY_LIMIT -> length (appendTurn t h) <= HISTORY_LIMIT.
Proof.
  intros Hlen.
  destruct (Nat.lt_ge_cases (length h) HISTORY_LIMIT) as [Hlt | Hge].
  - rewrite appendTurn_below by assumption. rewrite length_app; simpl; lia.
  - rewrite appendTurn_full by assumption.
    destruct h; simpl in *; [unfold HISTORY_LIMIT in Hge; lia |].
    rewrite length_app; simpl; lia.
Qed.

Lemma tl_skipn {A} (k : nat) (l : list A) : tl (skipn k l) = skipn (S k) l.
Proof.
  revert l; induction k as [| k IH]; intros [| x l]; try reflexivity.
  exact (IH l).
Qed.

Lemma lastn_length {A} (n : nat) (l : list A) :
  length (lastn n l) = Nat.min n (length l).
Proof. unfold lastn. rewrite length_skipn. lia. Qed.

(** Appending to the last five of [l] gives the last five of [l ++ [t]]. *)
Lemma appendTurn_lastn (l : list ConversationTurn) t :
  appendTurn t (lastn HISTORY_LIMIT l) = lastn HISTORY_LIMIT (l ++ [t]).
Proof.
  destruct (Nat.lt_ge_cases (length l) HISTORY_LIMIT) as [Hlt | Hge].
  - rewrite appendTurn_below by (rewrite lastn_length; lia).
    unfold lastn. rewrite length_app; simpl.
    replace (length l - HISTORY_LIMIT) with 0 by lia.
    replace (length l + 1 - HISTORY_LIMIT) with 0 by (unfold HISTORY_LIMIT in *; lia).
    reflexivity.
  - rewrite appendTurn_full by (rewrite lastn_length; lia).
    unfold lastn. rewrite tl_skipn, length_app; simpl.
    replace (length l + 1 - HISTORY_LIMIT) with (S (length l - HISTORY_LIMIT)) by lia.
    rewrite skipn_app.
    replace (S (length l - HISTORY_LIMIT) - length l) with 0
      by (unfold HISTORY_LIMIT in *; lia).
    reflexivity.
Qed.

Lemma appendAll_lastn (turns done : list ConversationTurn) :
  appendAll turns (lastn HISTORY_LIMIT done) = lastn HISTORY_LIMIT (done ++ turns).
Proof.
  revert done; induction turns as [| t turns IH]; intros done.
  - now rewrite app_nil_r.
  - simpl. rewrite appendTurn_lastn, (IH (done ++ [t])), <- app_assoc.
    reflexivity.
Qed.

End HistoryBuffer.

(** ** Evaluating [chatting] *)

(** Unfolds the monad and normalises the trace. *)
Ltac run_chatting :=
  unfold chatting, tryChatting, bind, log, call, getHistory, modifyHistory,
    ret, throw, record, setHistory; cbn [conversationHistory trace fst snd].

Ltac flatten_trace :=
  unfold searchEvents;
  repeat (progress cbn [conversationHistory trace app length Nat.eqb negb]
          || rewrite <- app_assoc).

Section ChattingRuns.

Variable Vector : Type.
Implicit Types (env : Env Vector) (s : State Vector) (q : string).

Lemma chatting_embed_throws env q s e :
  embedQuery env q = Throw e ->
  chatting env q s =
  mkState (conversationHistory s)
    (trace s ++ [Log MsgProcessing; Log MsgCreatingEmbedding; EmbedQuery q;
                 Log (MsgErrorDuringChatting (message e))]).
Proof.
  intros He. run_chatting. rewrite He. flatten_trace. reflexivity.
Qed.

Lemma chatting_search_throws env q s v e :
  embedQuery env q = Normal v ->
  indexQuery env (TOP_K_RESULTS env) v = Throw e ->
  chatting env q s =
  mkState (conversationHistory s)
    (trace s ++ searchEvents env q v
             ++ [Log (MsgErrorDuringChatting (message e))]).
Proof.
  intros He Hq. run_chatting. rewrite He, Hq. flatten_trace. reflexivity.
Qed.

Lemma chatting_matches_absent env q s v r :
  embedQuery env q = Normal v ->
  indexQuery env (TOP_K_RESULTS env) v = Normal r ->
  matches r = None ->
  chatting env q s =
  mkState (conversationHistory s)
    (trace s ++ searchEvents env q v
             ++ [Log (MsgErrorDuringChatting (message LENGTH_OF_UNDEFINED))]).
Proof.
  intros He Hq Hm. run_chatting. rewrite He, Hq, Hm. flatten_trace.
  reflexivity.
Qed.

Lemma chatting_no_matches env q s v r :
  embedQuery env q = Normal v ->
  indexQuery env (TOP_K_RESULTS env) v = Normal r ->
  matches r = Some [] ->
  chatting env q s =
  mkState (conversationHistory s)
    (trace s ++ searchEvents env q v
             ++ [Log (MsgFound 0); Log MsgNoRelevantDocuments]).
Proof.
  intros He Hq Hm. run_chatting. rewrite He, Hq, Hm. flatten_trace.
  reflexivity.
Qed.

Lemma chatting_no_text env q s v r ms :
  embedQuery env q = Normal v ->
  indexQuery env (TOP_K_RESULTS env) v = Normal r ->
  matches r = Some ms ->
  ms <> [] ->
  Js.truthy (buildContext ms) = false ->
  chatting env q s =
  mkState (conversationHistory s)
    (trace s ++ searchEvents env q v
             ++ [Log (MsgFound (length ms)); Log MsgNoTextContent]).
Proof.
  intros He Hq Hm Hne Hctx. run_chatting. rewrite He, Hq, Hm.
  destruct ms as [| m ms]; [congruence |].
  flatten_trace. rewrite Hctx. flatten_trace. reflexivity.
Qed.

Lemma chatting_model_throws env q s v r ms e :
  embedQuery env q = Normal v ->
  indexQuery env (TOP_K_RESULTS env) v = Normal r ->
  matches r = Some ms ->
  Js.truthy (buildContext ms) = true ->
  let input := mkInput (buildContext ms) q (formatHistory (conversationHistory s)) in
  model env (renderPrompt input) = Throw e ->
  chatting env q s =
  mkState (conversationHistory s)
    (trace s ++ searchEvents env q v
             ++ [Log (MsgFound (length ms)); Log MsgAsking; ChainInvoke input;
                 Log (MsgErrorDuringChatting (message e))]).
Proof.
  intros He Hq Hm Hctx input Hmodel. run_chatting. rewrite He, Hq, Hm.
  destruct ms as [| m ms]; [discriminate |].
  flatten_trace. rewrite Hctx. flatten_trace.
  fold input. rewrite Hmodel. flatten_trace. reflexivity.
Qed.

Lemma chatting_answers env q s v r ms a :
  embedQuery env q = Normal v ->
  indexQuery env (TOP_K_RESULTS env) v = Normal r ->
  matches r = Some ms ->
  Js.truthy (buildContext ms) = true ->
  let input := mkInput (buildContext ms) q (formatHistory (conversationHistory s)) in
  model env (renderPrompt input) = Normal a ->
  chatting env q s =
  mkState (appendTurn (mkTurn q a (now env)) (conversationHistory s))
    (trace s ++ searchEvents env q v
             ++ [Log (MsgFound (length ms)); Log MsgAsking; ChainInvoke input;
                 Log MsgResponseReceived; Log (MsgAnswer a)]).
Proof.
  intros He Hq Hm Hctx input Hmodel. run_chatting. rewrite He, Hq, Hm.
  destruct ms as [| m ms]; [discriminate |].
  flatten_trace. rewrite Hctx. flatten_trace.
  fold input. rewrite Hmodel. unfold appendTurn, HISTORY_LIMIT.
  flatten_trace. cbv zeta.
  destruct (5 <? length (push (mkTurn q a (now env)) (conversationHistory s)));
    flatten_trace; reflexivity.
Qed.

End ChattingRuns.

(** ** Strings *)

Section JsStrings.

Example trim_inner_space :
  Js.trim (" " ++ Js.nl ++ "a b  ")%string = "a b"%string.
Proof. reflexivity. Qed.

Example toLowerCase_mixed : Js.toLowerCase "HiStOrY 1!" = "history 1!"%string.
Proof. reflexivity. Qed.

Example ofNat_12 : Js.ofNat 12 = "12"%string.
Proof. reflexivity. Qed.

Ltac by_cases_on c :=
  destruct c as [[] [] [] [] [] [] [] []]; vm_compute;
  try reflexivity; try discriminate.

Lemma lowerChar_whiteSpace (c : ascii) :
  Js.isWhiteSpace c = true -> Js.lowerChar c = c.
Proof. by_cases_on c. Qed.

Lemma isWhiteSpace_lowerChar (c : ascii) :
  Js.isWhiteSpace (Js.lowerChar c) = Js.isWhiteSpace c.
Proof. by_cases_on c. Qed.

Lemma toLowerCase_app (a b : string) :
  Js.toLowerCase (a ++ b) = (Js.toLowerCase a ++ Js.toLowerCase b)%string.
Proof. induction a as [| c a IH]; simpl; [reflexivity | now rewrite IH]. Qed.

Lemma toLowerCase_whiteSpace (a : string) :
  Js.allWhiteSpace a = true -> Js.toLowerCase a = a.
Proof.
  induction a as [| c a IH]; simpl; [reflexivity |].
  intros H. apply andb_true_iff in H as [Hc Ha].
  now rewrite lowerChar_whiteSpace, IH.
Qed.

Lemma allWhiteSpace_toLowerCase (a : string) :
  Js.allWhiteSpace (Js.toLowerCase a) = Js.allWhiteSpace a.
Proof.
  induction a as [| c a IH]; simpl; [reflexivity |].
  now rewrite isWhiteSpace_lowerChar, IH.
Qed.

Lemma allWhiteSpace_app (a b : string) :
  Js.allWhiteSpace (a ++ b) = Js.allWhiteSpace a && Js.allWhiteSpace b.
Proof.
  induction a as [| c a IH]; simpl; [reflexivity |].
  now rewrite IH, andb_assoc.
Qed.

Lemma isEmpty_trimEnd (a : string) :
  Js.isEmpty (Js.trimEnd a) = Js.allWhiteSpace a.
Proof.
  induction a as [| c a IH]; simpl; [reflexivity |].
  destruct (Js.trimEnd a); simpl in IH; rewrite <- IH.
  - destruct (Js.isWhiteSpace c); reflexivity.
  - now rewrite andb_false_r.
Qed.

Lemma allWhiteSpace_trimStart (a : string) :
  Js.allWhiteSpace (Js.trimStart a) = Js.allWhiteSpace a.
Proof.
  induction a as [| c a IH]; simpl; [reflexivity |].
  destruct (Js.isWhiteSpace c) eqn:Hc; simpl; [exact IH | now rewrite Hc].
Qed.

(** [s.trim()] is truthy exactly when [s] has a character that is not
    white space. *)
Lemma truthy_trim (a : string) :
  Js.truthy (Js.trim a) = negb (Js.allWhiteSpace a).
Proof.
  unfold Js.truthy, Js.trim.
  now rewrite isEmpty_trimEnd, allWhiteSpace_trimStart.
Qed.

Lemma or_truthy (a b : string) : Js.truthy a = true -> Js.or a b = a.
Proof. unfold Js.or. now intros ->. Qed.

End JsStrings.

(** ** The transcript *)

Section Transcript.

Implicit Types (h : list ConversationTurn) (t : ConversationTurn).

Lemma formatEntry_transcriptEntry t (i : nat) :
  formatEntry t i = transcriptEntry (S i) t.
Proof. unfold formatEntry, transcriptEntry. now rewrite Nat.add_1_r. Qed.

Lemma join_mapiFrom_transcript h (i : nat) :
  Js.join (Js.nl ++ Js.nl) (Js.mapiFrom formatEntry i h)
  = numberedTranscript (S i) h.
Proof.
  revert i; induction h as [| t rest IH]; intros i; [reflexivity |].
  cbn [Js.mapiFrom]. rewrite formatEntry_transcriptEntry.
  destruct rest as [| t' rest]; [reflexivity |].
  specialize (IH (S i)).
  cbn [Js.mapiFrom] in IH |- *. unfold Js.join in IH |- *.
  cbn [String.concat] in IH |- *. rewrite IH.
  cbn [numberedTranscript]. reflexivity.
Qed.

Lemma formatHistory_nonempty h :
  h <> [] -> formatHistory h = numberedTranscript 1 h.
Proof.
  intros Hne. destruct h as [| t rest]; [congruence |].
  unfold formatHistory. cbn [length Nat.eqb].
  apply join_mapiFrom_transcript.
Qed.

(** A transcript of at least one entry starts with an opening bracket. *)
Lemma numberedTranscript_head (n : nat) t rest :
  exists tail, numberedTranscript n (t :: rest) = String "["%char tail.
Proof.
  destruct rest as [| t' rest]; cbn [numberedTranscript];
    unfold transcriptEntry; cbn [append]; eexists; reflexivity.
Qed.

Lemma formatHistory_head t rest :
  exists tail, formatHistory (t :: rest) = String "["%char tail.
Proof.
  rewrite formatHistory_nonempty by discriminate.
  apply numberedTranscript_head.
Qed.

Lemma formatHistory_truthy h : Js.truthy (formatHistory h) = true.
Proof.
  destruct h as [| t rest]; [reflexivity |].
  destruct (formatHistory_head t rest) as [tail ->]. reflexivity.
Qed.

Lemma formatHistory_sentinel h : formatHistory h = NO_HISTORY <-> h = [].
Proof.
  split; [| now intros ->].
  destruct h as [| t rest]; [reflexivity |].
  destruct (formatHistory_head t rest) as [tail ->]. discriminate.
Qed.

End Transcript.

(** ** Observing the trace *)

Section TraceFacts.

Variable Vector : Type.
Implicit Types (env : Env Vector) (s : State Vector) (q : string)
  (evs : list (Event Vector)).

Lemma chainInvocations_app evs evs' :
  chainInvocations (evs ++ evs')
  = chainInvocations evs ++ chainInvocations evs'.
Proof.
  induction evs as [| ev evs IH]; [reflexivity |].
  destruct ev; cbn [app chainInvocations]; now rewrite IH.
Qed.

Lemma retrievals_app evs evs' :
  retrievals (evs ++ evs') = retrievals evs + retrievals evs'.
Proof. unfold retrievals. now rewrite filter_app, length_app. Qed.

Lemma serviceCalls_app evs evs' :
  serviceCalls (evs ++ evs') = serviceCalls evs ++ serviceCalls evs'.
Proof. apply filter_app. Qed.

(** Splits on the outcome of every call and test of [chatting]. *)
Ltac chatting_cases :=
  run_chatting;
  repeat (flatten_trace;
          match goal with
          | |- context [match ?x with _ => _ end] =>
              lazymatch x with
              | context [match _ with _ => _ end] => fail
              | _ => destruct x eqn:?
              end
          end);
  flatten_trace.

(** Every call of [chatting] is one more retrieval. *)
Lemma chatting_retrievals env q s :
  retrievals (trace (chatting env q s)) = S (retrievals (trace s)).
Proof.
  chatting_cases; rewrite retrievals_app; cbn; lia.
Qed.

(** The history changes only when the question is answered, and then by
    the push and shift of [appendTurn]. *)
Lemma chatting_history env q s :
  (exists a,
      Answers env q (conversationHistory s) a /\
      conversationHistory (chatting env q s)
      = appendTurn (mkTurn q a (now env)) (conversationHistory s))
  \/ (conversationHistory (chatting env q s) = conversationHistory s
      /\ forall a, ~ Answers env q (conversationHistory s) a).
Proof.
  destruct (embedQuery env q) as [v | e] eqn:He.
  2:{ right. split; [now erewrite chatting_embed_throws by eassumption |].
      intros a (v & r & ms & He' & _). congruence. }
  destruct (indexQuery env (TOP_K_RESULTS env) v) as [r | e] eqn:Hq.
  2:{ right. split; [now erewrite chatting_search_throws by eassumption |].
      intros a (v' & r & ms & He' & Hq' & _). congruence. }
  destruct (matches r) as [ms |] eqn:Hm.
  2:{ right. split; [now erewrite chatting_matches_absent by eassumption |].
      intros a (v' & r' & ms & He' & Hq' & Hm' & _). congruence. }
  destruct (Js.truthy (buildContext ms)) eqn:Hctx.
  2:{ right. split.
      - destruct ms as [| m ms].
        + now erewrite chatting_no_matches by eassumption.
        + erewrite chatting_no_text; [reflexivity | eassumption .. | discriminate | assumption].
      - intros a (v' & r' & ms' & He' & Hq' & Hm' & Hctx' & _). congruence. }
  destruct (model env (renderPrompt
             (mkInput (buildContext ms) q (formatHistory (conversationHistory s)))))
    as [a | e] eqn:Hmodel.
  - left. exists a. split; [now exists v, r, ms |].
    now erewrite chatting_answers by eassumption.
  - right. split; [now erewrite chatting_model_throws by eassumption |].
    intros a (v' & r' & ms' & He' & Hq' & Hm' & Hctx' & Hmodel').
    congruence.
Qed.

End TraceFacts.

(** ** Runs of several questions *)

Section Runs.

Variable Vector : Type.
Implicit Types (env : Env Vector) (s : State Vector)
  (run : list (Env Vector * string * string)).

Lemma chatAll_answered run s :
  AllAnswered run (conversationHistory s) ->
  conversationHistory (chatAll (map fst run) s)
  = appendAll (map runTurn run) (conversationHistory s).
Proof.
  revert s; induction run as [| [[env q] a] rest IH]; intros s Hrun;
    [reflexivity |].
  destruct Hrun as [(v & r & ms & He & Hq & Hm & Hctx & Hmodel) Hrest].
  cbn [fst snd] in *.
  assert (Hs : conversationHistory (chatting env q s)
               = appendTurn (runTurn (env, q, a)) (conversationHistory s))
    by (now erewrite chatting_answers by eassumption).
  change (conversationHistory (chatAll (map fst rest) (chatting env q s))
          = appendAll (map runTurn rest)
              (appendTurn (runTurn (env, q, a)) (conversationHistory s))).
  rewrite IH; rewrite Hs; [reflexivity | assumption].
Qed.

End Runs.

(** ** The dispatcher *)

Section Dispatcher.

Variable Vector : Type.
Implicit Types (env : Env Vector) (s : State Vector) (line : string).

Lemma isReserved_iff line :
  isReserved line = true <->
  Js.toLowerCase line = "exit"%string
  \/ Js.toLowerCase line = "history"%string
  \/ Js.toLowerCase line = "clear"%string.
Proof.
  unfold isReserved. rewrite !orb_true_iff, !String.eqb_eq. tauto.
Qed.

Lemma loopBody_exit env line s :
  Js.toLowerCase line = "exit"%string ->
  loopBody env line s = (Break, record (Log MsgGoodbye) s).
Proof. intros H. unfold loopBody. now rewrite H. Qed.

Lemma loopBody_history env line s :
  Js.toLowerCase line = "history"%string ->
  loopBody env line s
  = (Continue,
     mkState (conversationHistory s)
       (trace s ++ [Log MsgHistoryHeader;
                    Log (MsgHistory (formatHistory (conversationHistory s)));
                    Log MsgHistoryFooter])).
Proof.
  intros H. unfold loopBody. rewrite H. cbn [String.eqb Ascii.eqb Bool.eqb].
  rewrite or_truthy by apply formatHistory_truthy.
  unfold record. flatten_trace. reflexivity.
Qed.

Lemma loopBody_clear env line s :
  Js.toLowerCase line = "clear"%string ->
  loopBody env line s
  = (Continue, mkState [] (trace s ++ [Log MsgHistoryCleared])).
Proof. intros H. unfold loopBody. now rewrite H. Qed.

Lemma blank_not_reserved line :
  Js.allWhiteSpace line = true -> isReserved line = false.
Proof.
  intros Hws. destruct (isReserved line) eqn:Hres; [| reflexivity].
  apply isReserved_iff in Hres.
  rewrite <- allWhiteSpace_toLowerCase in Hws.
  destruct Hres as [H | [H | H]]; rewrite H in Hws; discriminate.
Qed.

Lemma loopBody_not_reserved env line s :
  isReserved line = false ->
  loopBody env line s
  = (Continue, if Js.allWhiteSpace line then s else chatting env line s).
Proof.
  unfold isReserved, loopBody. rewrite !orb_false_iff.
  intros [[-> ->] ->]. rewrite truthy_trim.
  destruct (Js.allWhiteSpace line); reflexivity.
Qed.

Lemma loopBody_blank env line s :
  Js.allWhiteSpace line = true -> loopBody env line s = (Continue, s).
Proof.
  intros Hws. rewrite loopBody_not_reserved by now apply blank_not_reserved.
  now rewrite Hws.
Qed.

(** A reserved command is not blank, and neither starts nor ends with
    white space. *)
Lemma reserved_not_blank line :
  isReserved line = true -> Js.allWhiteSpace line = false.
Proof.
  intros Hres. destruct (Js.allWhiteSpace line) eqn:Hws; [| reflexivity].
  apply blank_not_reserved in Hws. congruence.
Qed.

Lemma padded_not_reserved (pre cmd post : string) :
  Js.allWhiteSpace pre = true ->
  Js.allWhiteSpace post = true ->
  (pre ++ post)%string <> EmptyString ->
  isReserved cmd = true ->
  isReserved (pre ++ cmd ++ post) = false.
Proof.
  intros Hpre Hpost Hpad Hcmd.
  destruct (isReserved (pre ++ cmd ++ post)) eqn:Hline; [| reflexivity].
  exfalso. apply isReserved_iff in Hline, Hcmd.
  rewrite !toLowerCase_app in Hline.
  rewrite (toLowerCase_whiteSpace _ Hpre),
    (toLowerCase_whiteSpace _ Hpost) in Hline.
  destruct pre as [| w pre].
  - destruct post as [| w post]; [now apply Hpad |].
    cbn [append] in Hline.
    destruct Hcmd as [E | [E | E]]; rewrite E in Hline;
      cbn [append] in Hline;
      destruct Hline as [H | [H | H]]; congruence.
  - cbn [Js.allWhiteSpace] in Hpre. apply andb_true_iff in Hpre as [Hw _].
    cbn [append] in Hline.
    destruct Hline as [H | [H | H]]; injection H as Hc _;
      rewrite Hc in Hw; discriminate.
Qed.

End Dispatcher.

(** ** The context string *)

Section Context.

Example separator_length : String.length CONTEXT_SEPARATOR = 7.
Proof. reflexivity. Qed.

Lemma join_separatedBy (sep : string) (xs : list string) :
  Js.join sep xs = separatedBy sep xs.
Proof.
  induction xs as [| x rest IH]; [reflexivity |].
  destruct rest as [| y rest]; [reflexivity |].
  unfold Js.join in *. cbn [String.concat separatedBy] in *.
  now rewrite IH.
Qed.

Lemma filter_map_chunkTexts (ms : list SearchMatch) :
  filter (fun t => 0 <? String.length t) (map matchText ms) = chunkTexts ms.
Proof.
  induction ms as [| m rest IH]; [reflexivity |].
  cbn [map filter chunkTexts]. rewrite <- IH.
  destruct m as [[[[[| c t] |]] |]]; reflexivity.
Qed.

Lemma buildContext_separatedBy (ms : list SearchMatch) :
  buildContext ms = separatedBy CONTEXT_SEPARATOR (chunkTexts ms).
Proof.
  unfold buildContext. now rewrite filter_map_chunkTexts, join_separatedBy.
Qed.

Lemma chunkTexts_noText (ms : list SearchMatch) :
  forallb hasNoText ms = true -> chunkTexts ms = [].
Proof.
  induction ms as [| m rest IH]; [reflexivity |].
  cbn [forallb chunkTexts]. intros H. apply andb_true_iff in H as [Hm Hrest].
  destruct m as [[[[[| c t] |]] |]]; try discriminate; now apply IH.
Qed.

Lemma buildContext_noText (ms : list SearchMatch) :
  forallb hasNoText ms = true -> buildContext ms = EmptyString.
Proof.
  intros H. now rewrite buildContext_separatedBy, chunkTexts_noText.
Qed.

End Context.

(** ** The history buffer along a run of [main] *)

Section MainInvariant.

Variable Vector : Type.
Implicit Types (env : Env Vector) (s : State Vector) (line : string).

Lemma chatting_bounded env q s :
  length (conversationHistory s) <= HISTORY_LIMIT ->
  length (conversationHistory (chatting env q s)) <= HISTORY_LIMIT.
Proof.
  intros Hlen.
  destruct (chatting_history env q s) as [(a & _ & ->) | [-> _]];
    [now apply appendTurn_length | assumption].
Qed.

Lemma loopBody_bounded env line s :
  length (conversationHistory s) <= HISTORY_LIMIT ->
  length (conversationHistory (snd (loopBody env line s))) <= HISTORY_LIMIT.
Proof.
  intros Hlen. destruct (isReserved line) eqn:Hres.
  - apply isReserved_iff in Hres as [H | [H | H]].
    + now rewrite loopBody_exit.
    + now rewrite loopBody_history.
    + rewrite loopBody_clear by assumption. apply Nat.le_0_l.
  - rewrite loopBody_not_reserved by assumption. cbn [snd].
    destruct (Js.allWhiteSpace line); [assumption | now apply chatting_bounded].
Qed.

Lemma mainLoop_bounded (inputs : list (Env Vector * string)) s :
  length (conversationHistory s) <= HISTORY_LIMIT ->
  length (conversationHistory (mainLoop inputs s)) <= HISTORY_LIMIT.
Proof.
  revert s; induction inputs as [| [env line] rest IH]; intros s Hlen;
    [assumption |].
  cbn [mainLoop].
  pose proof (@loopBody_bounded env line (record (ReadLine line) s) Hlen) as Hstep.
  destruct (loopBody env line (record (ReadLine line) s)) as [[|] s1];
    cbn [snd] in Hstep; [now apply IH | assumption].
Qed.

End MainInvariant.

(** C1.  Whatever turns are appended to an empty buffer, it holds at most
    five of them, namely the last five appended, in order; an append to a
    buffer of five drops the oldest entry and only that one; along every
    run of [main] the buffer holds at most five entries.  After six
    answered questions the buffer holds turns two to six and
    [formatHistory] renders exactly those, numbered 1 to 5. *)
Theorem history_bounded_fifo :
  (forall turns : list ConversationTurn,
      length (appendAll turns []) <= 5
      /\ appendAll turns [] = lastn 5 turns)
  /\ (forall (h : list ConversationTurn) (t : ConversationTurn),
         (length h < 5 -> appendTurn t h = h ++ [t])
         /\ (length h = 5 -> appendTurn t h = tl h ++ [t]))
  /\ (forall (Vector : Type) (inputs : list (Env Vector * string)),
         length (conversationHistory (main inputs)) <= 5)
  /\ (forall (Vector : Type) (run : list (Env Vector * string * string))
        (s : State Vector),
         conversationHistory s = [] ->
         AllAnswered run [] ->
         conversationHistory (chatAll (map fst run) s)
         = lastn 5 (map runTurn run))
  /\ (forall (Vector : Type) (x1 x2 x3 x4 x5 x6 : Env Vector * string * string)
        (s : State Vector),
         conversationHistory s = [] ->
         AllAnswered [x1; x2; x3; x4; x5; x6] [] ->
         let s' := chatAll (map fst [x1; x2; x3; x4; x5; x6]) s in
         conversationHistory s'
         = [runTurn x2; runTurn x3; runTurn x4; runTurn x5; runTurn x6]
         /\ formatHistory (conversationHistory s')
            = numberedTranscript 1
                [runTurn x2; runTurn x3; runTurn x4; runTurn x5; runTurn x6]).
Proof.
  assert (Hall : forall turns, appendAll turns [] = lastn 5 turns).
  { intros turns. exact (appendAll_lastn turns []). }
  assert (Hrun : forall Vector (run : list (Env Vector * string * string)) s,
             conversationHistory s = [] -> AllAnswered run [] ->
             conversationHistory (chatAll (map fst run) s)
             = lastn 5 (map runTurn run)).
  { intros Vector run s Hs Hrun. rewrite <- Hs in Hrun.
    rewrite (chatAll_answered _ _ Hrun), Hs. apply Hall. }
  split; [| split; [| split; [| split]]].
  - intros turns. split; [| apply Hall].
    rewrite Hall, lastn_length. apply Nat.le_min_l.
  - intros h t. split; [apply appendTurn_below |].
    intros Hlen. apply appendTurn_full. unfold HISTORY_LIMIT. lia.
  - intros Vector inputs. apply mainLoop_bounded. apply Nat.le_0_l.
  - exact Hrun.
  - intros Vector x1 x2 x3 x4 x5 x6 s Hs Hsix s'. subst s'.
    rewrite (Hrun _ _ _ Hs Hsix). split; [reflexivity |].
    apply formatHistory_nonempty. discriminate.
Qed.

Lemma history_bounded_fifo_witness :
  conversationHistory Sample.start = []
  /\ AllAnswered (map Sample.ask ["q1"; "q2"; "q3"; "q4"; "q5"; "q6"]%string) []
  /\ formatHistory
       (conversationHistory
          (chatAll (map fst (map Sample.ask ["q1"; "q2"; "q3"; "q4"; "q5"; "q6"]%string))
             Sample.start))
     = numberedTranscript 1
         (map runTurn (map Sample.ask ["q2"; "q3"; "q4"; "q5"; "q6"]%string)).
Proof.
  assert (Hrun : AllAnswered
                   (map Sample.ask ["q1"; "q2"; "q3"; "q4"; "q5"; "q6"]%string) []).
  { cbn [map AllAnswered].
    repeat (split; [do 3 eexists; repeat split; reflexivity |]). exact I. }
  split; [reflexivity |]. split; [exact Hrun |].
  exact (proj2 (proj2 (proj2 (proj2 (proj2 history_bounded_fifo)))
                  Sample.Vector _ _ _ _ _ _ Sample.start eq_refl Hrun)).
Defined.

(** ** Short circuits and errors of [chatting] *)

(** C2.  When the embedder returns and the index returns an empty list of
    matches, [chatting] logs that no relevant documents were found and
    returns: the chain (prompt, chat model, parser) is not invoked and the
    history is as before. *)
Theorem no_matches_short_circuits :
  forall (Vector : Type) (env : Env Vector) (q : string) (s : State Vector)
    (v : Vector) (r : SearchResults),
    embedQuery env q = Normal v ->
    indexQuery env (TOP_K_RESULTS env) v = Normal r ->
    matches r = Some [] ->
    let s' := chatting env q s in
    trace s' = trace s ++ searchEvents env q v
                 ++ [Log (MsgFound 0); Log MsgNoRelevantDocuments]
    /\ chainInvocations (trace s') = chainInvocations (trace s)
    /\ conversationHistory s' = conversationHistory s.
Proof.
  intros Vector env q s v r He Hq Hm s'. subst s'.
  erewrite chatting_no_matches by eassumption. cbn [trace conversationHistory].
  repeat split. rewrite !chainInvocations_app. cbn. apply app_nil_r.
Qed.

Lemma no_matches_short_circuits_witness :
  let s' := chatting (Sample.env (Some [])) "What is this?" Sample.start in
  trace s' = searchEvents (Sample.env (Some [])) "What is this?" [1; 2; 3]
               ++ [Log (MsgFound 0); Log MsgNoRelevantDocuments]
  /\ chainInvocations (trace s') = []
  /\ conversationHistory s' = [].
Proof.
  exact (@no_matches_short_circuits Sample.Vector (Sample.env (Some []))
           "What is this?" Sample.start [1; 2; 3] (mkResults (Some []))
           eq_refl eq_refl eq_refl).
Defined.

(** C3.  When the embedder returns and the index returns matches none of
    which carries text (no metadata, no [text], or an empty [text]),
    [chatting] reports that there are no documents to answer from and
    returns: the message is the one of an empty match list when the list
    is empty and the one of matches without text otherwise; the chain is
    not invoked and the history is as before. *)
Theorem empty_text_short_circuits :
  forall (Vector : Type) (env : Env Vector) (q : string) (s : State Vector)
    (v : Vector) (r : SearchResults) (ms : list SearchMatch),
    embedQuery env q = Normal v ->
    indexQuery env (TOP_K_RESULTS env) v = Normal r ->
    matches r = Some ms ->
    forallb hasNoText ms = true ->
    let s' := chatting env q s in
    let report :=
      if length ms =? 0 then MsgNoRelevantDocuments else MsgNoTextContent in
    reportsNoDocuments report = true
    /\ trace s' = trace s ++ searchEvents env q v
                    ++ [Log (MsgFound (length ms)); Log report]
    /\ chainInvocations (trace s') = chainInvocations (trace s)
    /\ conversationHistory s' = conversationHistory s.
Proof.
  intros Vector env q s v r ms He Hq Hm Htext s' report. subst s' report.
  destruct ms as [| m ms].
  - erewrite chatting_no_matches by eassumption.
    cbn [trace conversationHistory length Nat.eqb].
    repeat split. rewrite !chainInvocations_app. cbn. apply app_nil_r.
  - assert (Hctx : Js.truthy (buildContext (m :: ms)) = false)
      by now rewrite buildContext_noText.
    erewrite chatting_no_text; try eassumption; [| discriminate].
    cbn [trace conversationHistory length Nat.eqb].
    repeat split. rewrite !chainInvocations_app. cbn. apply app_nil_r.
Qed.

Lemma empty_text_short_circuits_witness :
  let ms := [Sample.chunk EmptyString; Sample.noMetadata] in
  let s' := chatting (Sample.env (Some ms)) "What is this?" Sample.start in
  trace s' = searchEvents (Sample.env (Some ms)) "What is this?" [1; 2; 3]
               ++ [Log (MsgFound 2); Log MsgNoTextContent]
  /\ chainInvocations (trace s') = []
  /\ conversationHistory s' = [].
Proof.
  exact (proj2 (@empty_text_short_circuits Sample.Vector
                  (Sample.env (Some [Sample.chunk EmptyString; Sample.noMetadata]))
                  "What is this?" Sample.start [1; 2; 3]
                  (mkResults (Some [Sample.chunk EmptyString; Sample.noMetadata]))
                  [Sample.chunk EmptyString; Sample.noMetadata]
                  eq_refl eq_refl eq_refl eq_refl)).
Defined.

(** C4.  When the embedder, the index or the chat model throws, [chatting]
    ends by logging the message of what was thrown and the history is as
    before.  More generally the history changes only when the question is
    answered, and then by one append. *)
Theorem error_leaves_history :
  (forall (Vector : Type) (env : Env Vector) (q : string) (s : State Vector)
     (e : JsError),
      Raises env q (conversationHistory s) e ->
      let s' := chatting env q s in
      conversationHistory s' = conversationHistory s
      /\ exists evs,
          trace s' = trace s ++ evs ++ [Log (MsgErrorDuringChatting (message e))])
  /\ (forall (Vector : Type) (env : Env Vector) (q : string) (s : State Vector),
         conversationHistory (chatting env q s) <> conversationHistory s ->
         exists a,
           Answers env q (conversationHistory s) a
           /\ conversationHistory (chatting env q s)
              = appendTurn (mkTurn q a (now env)) (conversationHistory s)).
Proof.
  split.
  - intros Vector env q s e Hraises s'. subst s'.
    destruct Hraises as [He | [(v & He & Hq) | (v & r & ms & He & Hq & Hm & Hctx & Hmodel)]].
    + erewrite chatting_embed_throws by eassumption. cbn [trace conversationHistory].
      split; [reflexivity |].
      exists [Log MsgProcessing; Log MsgCreatingEmbedding; EmbedQuery q].
      reflexivity.
    + erewrite chatting_search_throws by eassumption. cbn [trace conversationHistory].
      split; [reflexivity |]. now exists (searchEvents env q v).
    + erewrite chatting_model_throws by eassumption.
      cbn [trace conversationHistory]. split; [reflexivity |].
      eexists (searchEvents env q v ++ [_; _; _]).
      rewrite <- !app_assoc. reflexivity.
  - intros Vector env q s Hchanged.
    destruct (chatting_history env q s) as [Hok | [Hsame _]];
      [exact Hok | contradiction].
Qed.

Lemma error_leaves_history_witness :
  Raises Sample.envModelDown "What is this?" [] Sample.failure
  /\ conversationHistory (chatting Sample.envModelDown "What is this?" Sample.start)
     = []
  /\ Raises Sample.envEmbedderDown "What is this?" [] Sample.failure
  /\ conversationHistory
       (chatting Sample.envEmbedderDown "What is this?" Sample.start)
     = [].
Proof.
  assert (Hmodel : Raises Sample.envModelDown "What is this?"
                     (conversationHistory Sample.start) Sample.failure).
  { right. right.
    exists [1; 2; 3], (mkResults (Some [Sample.chunk "a"; Sample.chunk "b"])),
      [Sample.chunk "a"; Sample.chunk "b"].
    repeat split; reflexivity. }
  assert (Hembed : Raises Sample.envEmbedderDown "What is this?"
                     (conversationHistory Sample.start) Sample.failure)
    by (left; reflexivity).
  split; [exact Hmodel |]. split.
  - exact (proj1 (proj1 error_leaves_history Sample.Vector Sample.envModelDown
                    "What is this?" Sample.start Sample.failure Hmodel)).
  - split; [exact Hembed |].
    exact (proj1 (proj1 error_leaves_history Sample.Vector
                    Sample.envEmbedderDown "What is this?" Sample.start
                    Sample.failure Hembed)).
Defined.

(** C7.  When the index returns matches, the context handed to the chain is
    the non-empty chunk texts of the matches, in the order of the match
    list, with the separator between two of them; the chain is invoked
    with it once when it is not empty, and not at all otherwise. *)
Theorem context_joins_chunk_texts :
  forall (Vector : Type) (env : Env Vector) (q : string) (s : State Vector)
    (v : Vector) (r : SearchResults) (ms : list SearchMatch),
    embedQuery env q = Normal v ->
    indexQuery env (TOP_K_RESULTS env) v = Normal r ->
    matches r = Some ms ->
    ms <> [] ->
    let context := separatedBy CONTEXT_SEPARATOR (chunkTexts ms) in
    buildContext ms = context
    /\ chainInvocations (trace (chatting env q s))
       = chainInvocations (trace s)
         ++ (if Js.truthy context
             then [mkInput context q (formatHistory (conversationHistory s))]
             else []).
Proof.
  intros Vector env q s v r ms He Hq Hm Hne context. subst context.
  split; [apply buildContext_separatedBy |].
  rewrite <- buildContext_separatedBy.
  destruct (Js.truthy (buildContext ms)) eqn:Hctx.
  - destruct (model env (renderPrompt
               (mkInput (buildContext ms) q (formatHistory (conversationHistory s)))))
      as [a | e] eqn:Hmodel.
    + erewrite chatting_answers by eassumption. cbn [trace].
      rewrite !chainInvocations_app. reflexivity.
    + erewrite chatting_model_throws by eassumption. cbn [trace].
      rewrite !chainInvocations_app. reflexivity.
  - erewrite chatting_no_text by eassumption. cbn [trace].
    rewrite !chainInvocations_app. reflexivity.
Qed.

Lemma context_joins_chunk_texts_witness :
  let ms := [Sample.chunk "first"; Sample.noMetadata; Sample.chunk EmptyString;
             Sample.chunk "second"] in
  buildContext ms
  = ("first" ++ Js.nl ++ Js.nl ++ "---" ++ Js.nl ++ Js.nl ++ "second")%string
  /\ chainInvocations
       (trace (chatting (Sample.env (Some ms)) "What is this?" Sample.start))
     = [mkInput
          ("first" ++ Js.nl ++ Js.nl ++ "---" ++ Js.nl ++ Js.nl ++ "second")%string
          "What is this?" NO_HISTORY].
Proof.
  refine (@context_joins_chunk_texts Sample.Vector
            (Sample.env (Some [Sample.chunk "first"; Sample.noMetadata;
                               Sample.chunk EmptyString; Sample.chunk "second"]))
            "What is this?" Sample.start [1; 2; 3]
            (mkResults (Some [Sample.chunk "first"; Sample.noMetadata;
                              Sample.chunk EmptyString; Sample.chunk "second"]))
            [Sample.chunk "first"; Sample.noMetadata;
             Sample.chunk EmptyString; Sample.chunk "second"]
            eq_refl eq_refl eq_refl _).
  discriminate.
Defined.

(** ** [formatHistory] and the commands *)

(** C5.  [formatHistory] returns the sentinel exactly when the buffer is
    empty; on a buffer that is not empty it returns the numbered transcript
    of all its entries, in order.  After the [clear] command the buffer has
    no entry and [formatHistory] returns the sentinel. *)
Theorem format_and_clear :
  (forall h : list ConversationTurn,
      (formatHistory h = "No previous conversation."%string <-> h = [])
      /\ (h <> [] -> formatHistory h = numberedTranscript 1 h))
  /\ (forall (Vector : Type) (env : Env Vector) (line : string)
        (s : State Vector),
         Js.toLowerCase line = "clear"%string ->
         let s' := snd (loopBody env line s) in
         length (conversationHistory s') = 0
         /\ formatHistory (conversationHistory s')
            = "No previous conversation."%string).
Proof.
  split.
  - intros h. split; [apply formatHistory_sentinel | apply formatHistory_nonempty].
  - intros Vector env line s Hclear s'. subst s'.
    rewrite loopBody_clear by assumption. split; reflexivity.
Qed.

Lemma format_and_clear_witness :
  Js.toLowerCase "Clear" = "clear"%string
  /\ formatHistory
       (conversationHistory
          (snd (loopBody (Sample.env None) "Clear"
                  (mkState [mkTurn "q" "a" Sample.clock] []))))
     = "No previous conversation."%string.
Proof.
  split; [reflexivity |].
  exact (proj2 (proj2 format_and_clear Sample.Vector (Sample.env None) "Clear"
                  (mkState [mkTurn "q" "a" Sample.clock] []) eq_refl)).
Defined.

(** C10.  [formatHistory] never returns the empty string, so in the
    [history] command [formatHistory() || 'No history yet.'] is the value
    of [formatHistory()] and the fallback text is never printed. *)
Theorem history_fallback_unreachable :
  (forall h : list ConversationTurn,
      formatHistory h <> EmptyString
      /\ Js.or (formatHistory h) "No history yet." = formatHistory h
      /\ formatHistory h <> "No history yet."%string)
  /\ (forall (Vector : Type) (env : Env Vector) (line : string)
        (s : State Vector),
         Js.toLowerCase line = "history"%string ->
         loopBody env line s
         = (Continue,
            mkState (conversationHistory s)
              (trace s
               ++ [Log MsgHistoryHeader;
                   Log (MsgHistory (formatHistory (conversationHistory s)));
                   Log MsgHistoryFooter]))).
Proof.
  split.
  - intros h. pose proof (formatHistory_truthy h) as Htruthy.
    split; [| split].
    + intros Hempty. rewrite Hempty in Htruthy. discriminate.
    + now apply or_truthy.
    + destruct h as [| t rest]; [discriminate |].
      destruct (formatHistory_head t rest) as [tail ->]. discriminate.
  - intros Vector env line s Hline. now apply loopBody_history.
Qed.

Lemma history_fallback_unreachable_witness :
  Js.toLowerCase "HISTORY" = "history"%string
  /\ loopBody (Sample.env None) "HISTORY" Sample.start
     = (Continue,
        mkState []
          [Log MsgHistoryHeader; Log (MsgHistory "No previous conversation.");
           Log MsgHistoryFooter]).
Proof.
  split; [reflexivity |].
  exact (proj2 history_fallback_unreachable Sample.Vector (Sample.env None)
           "HISTORY" Sample.start eq_refl).
Defined.

(** C6.  A line that is [exit], [history] or [clear] up to letter case runs
    that command: [exit] says goodbye and leaves the loop, [history] prints
    the transcript, [clear] empties the buffer.  A line that is empty or
    white space only changes nothing and the loop reads the next line.  In
    all four cases [chatting] is not entered and no external service is
    called. *)
Theorem commands_and_blank_lines_skip_retrieval :
  forall (Vector : Type) (env : Env Vector) (line : string) (s : State Vector),
    (Js.toLowerCase line = "exit"%string ->
     loopBody env line s = (Break, mkState (conversationHistory s)
                                     (trace s ++ [Log MsgGoodbye])))
    /\ (Js.toLowerCase line = "history"%string ->
        loopBody env line s
        = (Continue,
           mkState (conversationHistory s)
             (trace s
              ++ [Log MsgHistoryHeader;
                  Log (MsgHistory (formatHistory (conversationHistory s)));
                  Log MsgHistoryFooter])))
    /\ (Js.toLowerCase line = "clear"%string ->
        loopBody env line s
        = (Continue, mkState [] (trace s ++ [Log MsgHistoryCleared])))
    /\ (Js.allWhiteSpace line = true ->
        loopBody env line s = (Continue, s)
        /\ forall rest,
            mainLoop ((env, line) :: rest) s
            = mainLoop rest (record (ReadLine line) s))
    /\ (isReserved line = true \/ Js.allWhiteSpace line = true ->
        retrievals (trace (snd (loopBody env line s))) = retrievals (trace s)
        /\ serviceCalls (trace (snd (loopBody env line s)))
           = serviceCalls (trace s)).
Proof.
  intros Vector env line s.
  split; [apply loopBody_exit |].
  split; [apply loopBody_history |].
  split; [apply loopBody_clear |].
  split.
  - intros Hws. split; [now apply loopBody_blank |].
    intros rest. cbn [mainLoop]. now rewrite loopBody_blank.
  - intros [Hres | Hws].
    + apply isReserved_iff in Hres as [H | [H | H]].
      * rewrite loopBody_exit by assumption. cbn [snd record trace].
        rewrite retrievals_app, serviceCalls_app. cbn.
        now rewrite Nat.add_0_r, app_nil_r.
      * rewrite loopBody_history by assumption. cbn [snd trace].
        rewrite retrievals_app, serviceCalls_app. cbn.
        now rewrite Nat.add_0_r, app_nil_r.
      * rewrite loopBody_clear by assumption. cbn [snd trace].
        rewrite retrievals_app, serviceCalls_app. cbn.
        now rewrite Nat.add_0_r, app_nil_r.
    + rewrite loopBody_blank by assumption. split; reflexivity.
Qed.

Lemma commands_and_blank_lines_skip_retrieval_witness :
  loopBody (Sample.env None) "ExIt" Sample.start
  = (Break, mkState [] [Log MsgGoodbye])
  /\ loopBody (Sample.env None) "   " Sample.start = (Continue, Sample.start)
  /\ retrievals (trace (snd (loopBody (Sample.env None) "CLEAR" Sample.start)))
     = 0.
Proof.
  pose proof (@commands_and_blank_lines_skip_retrieval Sample.Vector
                (Sample.env None)) as H.
  split; [exact (proj1 (H "ExIt"%string Sample.start) eq_refl) |].
  split.
  - exact (proj1 (proj1 (proj2 (proj2 (proj2 (H "   "%string Sample.start))))
                    eq_refl)).
  - exact (proj1 (proj2 (proj2 (proj2 (proj2 (H "CLEAR"%string Sample.start))))
                    (or_introl eq_refl))).
Defined.

(** ** Lines as typed *)

Section TypedLines.

Lemma trimStart_app_whiteSpace (pre x : string) :
  Js.allWhiteSpace pre = true ->
  Js.trimStart (pre ++ x) = Js.trimStart x.
Proof.
  induction pre as [| c pre IH]; cbn [append Js.allWhiteSpace Js.trimStart];
    [reflexivity |].
  intros H. apply andb_true_iff in H as [-> Hpre]. now apply IH.
Qed.

Lemma trimEnd_whiteSpace (post : string) :
  Js.allWhiteSpace post = true -> Js.trimEnd post = EmptyString.
Proof.
  intros H. rewrite <- isEmpty_trimEnd in H.
  destruct (Js.trimEnd post); [reflexivity | discriminate].
Qed.

Lemma trimEnd_app_whiteSpace (x post : string) :
  Js.allWhiteSpace post = true ->
  Js.trimEnd (x ++ post) = Js.trimEnd x.
Proof.
  intros H. induction x as [| c x IH]; cbn [append Js.trimEnd].
  - now apply trimEnd_whiteSpace.
  - now rewrite IH.
Qed.

Lemma trimEnd_idempotent (x : string) :
  Js.trimEnd (Js.trimEnd x) = Js.trimEnd x.
Proof.
  induction x as [| c x IH]; [reflexivity |].
  cbn [Js.trimEnd]. destruct (Js.trimEnd x) as [| d t] eqn:Hx.
  - destruct (Js.isWhiteSpace c) eqn:Hc; [reflexivity |].
    cbn [Js.trimEnd]. now rewrite Hc.
  - cbn [Js.trimEnd]. cbn [Js.trimEnd] in IH. now rewrite IH.
Qed.

Lemma trimStart_head (c : ascii) (x : string) :
  Js.isWhiteSpace c = false -> Js.trimStart (String c x) = String c x.
Proof. intros H. cbn [Js.trimStart]. now rewrite H. Qed.

Lemma trimStart_shape (x : string) :
  Js.trimStart x = EmptyString
  \/ exists c y, Js.trimStart x = String c y /\ Js.isWhiteSpace c = false.
Proof.
  induction x as [| c x IH]; [now left |].
  cbn [Js.trimStart]. destruct (Js.isWhiteSpace c) eqn:Hc; [exact IH |].
  right. now exists c, x.
Qed.

Lemma trimEnd_head (c : ascii) (y : string) :
  Js.isWhiteSpace c = false ->
  exists t, Js.trimEnd (String c y) = String c t.
Proof.
  intros Hc. cbn [Js.trimEnd]. destruct (Js.trimEnd y).
  - rewrite Hc. now eexists.
  - now eexists.
Qed.

(** [trim] leaves nothing for a second [trim] to remove. *)
Lemma trim_idempotent (x : string) : Js.trim (Js.trim x) = Js.trim x.
Proof.
  unfold Js.trim.
  destruct (trimStart_shape x) as [-> | (c & y & -> & Hc)]; [reflexivity |].
  destruct (@trimEnd_head c y Hc) as [t Ht]. rewrite Ht.
  rewrite trimStart_head by assumption. rewrite <- Ht.
  apply trimEnd_idempotent.
Qed.

(** A reserved command starts with a character that is not white space
    and has nothing for [trimEnd] to remove. *)
Lemma reserved_shape (cmd : string) :
  isReserved cmd = true ->
  exists c rest,
    cmd = String c rest
    /\ Js.isWhiteSpace c = false
    /\ Js.trimEnd (String c rest) = String c rest.
Proof.
  intros Hres. apply isReserved_iff in Hres.
  assert (Hlower : forall c d, Js.lowerChar c = d ->
                               Js.isWhiteSpace d = false ->
                               Js.isWhiteSpace c = false)
    by (intros c d <-; now rewrite isWhiteSpace_lowerChar).
  destruct Hres as [H | [H | H]].
  - destruct cmd as [| c1 [| c2 [| c3 [| c4 [| c5 r]]]]]; try discriminate H.
    injection H as H1 _ _ H4.
    apply Hlower in H1; [| reflexivity]. apply Hlower in H4; [| reflexivity].
    exists c1, (String c2 (String c3 (String c4 EmptyString))).
    split; [reflexivity |]. split; [assumption |].
    cbn [Js.trimEnd]. now rewrite H4.
  - destruct cmd as [| c1 [| c2 [| c3 [| c4 [| c5 [| c6 [| c7 [| c8 r]]]]]]]];
      try discriminate H.
    injection H as H1 _ _ _ _ _ H7.
    apply Hlower in H1; [| reflexivity]. apply Hlower in H7; [| reflexivity].
    exists c1, (String c2 (String c3 (String c4 (String c5 (String c6
                 (String c7 EmptyString)))))).
    split; [reflexivity |]. split; [assumption |].
    cbn [Js.trimEnd]. now rewrite H7.
  - destruct cmd as [| c1 [| c2 [| c3 [| c4 [| c5 [| c6 r]]]]]];
      try discriminate H.
    injection H as H1 _ _ _ H5.
    apply Hlower in H1; [| reflexivity]. apply Hlower in H5; [| reflexivity].
    exists c1, (String c2 (String c3 (String c4 (String c5 EmptyString)))).
    split; [reflexivity |]. split; [assumption |].
    cbn [Js.trimEnd]. now rewrite H5.
Qed.

Lemma trim_padded_reserved (pre cmd post : string) :
  Js.allWhiteSpace pre = true ->
  Js.allWhiteSpace post = true ->
  isReserved cmd = true ->
  Js.trim (pre ++ cmd ++ post) = cmd.
Proof.
  intros Hpre Hpost Hcmd.
  destruct (@reserved_shape cmd Hcmd) as (c & rest & -> & Hc & Hend).
  unfold Js.trim. rewrite trimStart_app_whiteSpace by assumption.
  change (String c rest ++ post)%string with (String c (rest ++ post)%string).
  rewrite trimStart_head by assumption.
  change (String c (rest ++ post)%string) with (String c rest ++ post)%string.
  now rewrite trimEnd_app_whiteSpace.
Qed.

End TypedLines.

(** C9 as stated fails: [readlineSync.question] returns the typed line
    trimmed, so a typed [exit] with a space on each side reaches [main] as
    [exit] and leaves the loop; [chatting] is not entered. *)
Lemma typed_padded_exit_leaves_the_loop :
  Js.allWhiteSpace " " = true
  /\ isReserved "exit" = true
  /\ readlineSyncQuestion " exit " = "exit"%string
  /\ loopBody (Sample.env (Some [])) (readlineSyncQuestion " exit ") Sample.start
     = (Break, mkState [] [Log MsgGoodbye])
  /\ loopBody (Sample.env (Some [])) (readlineSyncQuestion " exit ") Sample.start
     <> (Continue,
         chatting (Sample.env (Some [])) (readlineSyncQuestion " exit ")
           Sample.start).
Proof.
  repeat split; try reflexivity. vm_compute. discriminate.
Qed.

(** C9, amended.  A reserved command typed with white space before or
    after it reaches [main] as the bare command, because
    [readlineSync.question] trims what it returns: [main] runs it as that
    command and [chatting] is not entered.  The comparison of [main] itself
    lowercases without trimming, so a value with white space around a
    command would match none of them; no such value is received, since a
    value returned by [readlineSync.question] has no white space at either
    end. *)
Theorem typed_padded_command_is_run :
  forall (Vector : Type) (env : Env Vector) (pre cmd post : string)
    (s : State Vector),
    Js.allWhiteSpace pre = true ->
    Js.allWhiteSpace post = true ->
    isReserved cmd = true ->
    let typed := (pre ++ cmd ++ post)%string in
    readlineSyncQuestion typed = cmd
    /\ loopBody env (readlineSyncQuestion typed) s = loopBody env cmd s
    /\ retrievals (trace (snd (loopBody env (readlineSyncQuestion typed) s)))
       = retrievals (trace s)
    /\ serviceCalls (trace (snd (loopBody env (readlineSyncQuestion typed) s)))
       = serviceCalls (trace s)
    /\ ((pre ++ post)%string <> EmptyString -> isReserved typed = false)
    /\ (forall anyTyped : string,
           Js.trim (readlineSyncQuestion anyTyped)
           = readlineSyncQuestion anyTyped).
Proof.
  intros Vector env pre cmd post s Hpre Hpost Hcmd typed.
  assert (Hread : readlineSyncQuestion typed = cmd)
    by now apply trim_padded_reserved.
  split; [exact Hread |]. rewrite Hread. split; [reflexivity |].
  assert (Hskip : retrievals (trace (snd (loopBody env cmd s)))
                  = retrievals (trace s)
                  /\ serviceCalls (trace (snd (loopBody env cmd s)))
                     = serviceCalls (trace s)).
  { apply isReserved_iff in Hcmd as [H | [H | H]].
    - rewrite loopBody_exit by assumption. cbn [snd record trace].
      rewrite retrievals_app, serviceCalls_app. cbn.
      now rewrite Nat.add_0_r, app_nil_r.
    - rewrite loopBody_history by assumption. cbn [snd trace].
      rewrite retrievals_app, serviceCalls_app. cbn.
      now rewrite Nat.add_0_r, app_nil_r.
    - rewrite loopBody_clear by assumption. cbn [snd trace].
      rewrite retrievals_app, serviceCalls_app. cbn.
      now rewrite Nat.add_0_r, app_nil_r. }
  destruct Hskip as [Hretr Hcalls].
  split; [exact Hretr |]. split; [exact Hcalls |]. split.
  - intros Hpad. now apply padded_not_reserved.
  - intros anyTyped. apply trim_idempotent.
Qed.

Lemma typed_padded_command_is_run_witness :
  readlineSyncQuestion " exit " = "exit"%string
  /\ retrievals
       (trace (snd (loopBody (Sample.env (Some []))
                      (readlineSyncQuestion " exit ") Sample.start)))
     = 0.
Proof.
  pose proof (@typed_padded_command_is_run Sample.Vector (Sample.env (Some []))
                " " "exit" " " Sample.start eq_refl eq_refl eq_refl) as H.
  split; [exact (proj1 H) | exact (proj1 (proj2 (proj2 H)))].
Defined.

(** * Further properties of the program *)

(** ** Calls made by [chatting] *)

Section ServiceCalls.

Variable Vector : Type.
Implicit Types (env : Env Vector) (s : State Vector) (q : string).

Lemma serviceCalls_searchEvents env q (v : Vector) :
  serviceCalls (searchEvents env q v)
  = [EmbedQuery q; IndexQuery (TOP_K_RESULTS env) v].
Proof. reflexivity. Qed.

(** The events [chatting] adds, with the calls among them. *)
Lemma chatting_added_calls env q s :
  exists evs,
    trace (chatting env q s) = trace s ++ evs
    /\ serviceCalls evs = expectedCalls env q (conversationHistory s).
Proof.
  unfold expectedCalls.
  destruct (embedQuery env q) as [v | e] eqn:He.
  2:{ erewrite chatting_embed_throws by eassumption.
      eexists; split; reflexivity. }
  destruct (indexQuery env (TOP_K_RESULTS env) v) as [r | e] eqn:Hq.
  2:{ erewrite chatting_search_throws by eassumption.
      eexists; split; reflexivity. }
  destruct (matches r) as [ms |] eqn:Hm.
  2:{ erewrite chatting_matches_absent by eassumption.
      eexists; split; reflexivity. }
  destruct (Js.truthy (buildContext ms)) eqn:Hctx.
  - destruct (model env (renderPrompt
               (mkInput (buildContext ms) q (formatHistory (conversationHistory s)))))
      as [a | e] eqn:Hmodel.
    + erewrite chatting_answers by eassumption.
      eexists; split; reflexivity.
    + erewrite chatting_model_throws by eassumption.
      eexists; split; reflexivity.
  - destruct ms as [| m ms].
    + erewrite chatting_no_matches by eassumption.
      eexists; split; reflexivity.
    + erewrite chatting_no_text; try eassumption; [| discriminate].
      eexists; split; reflexivity.
Qed.

End ServiceCalls.

(** X1.  For one question [chatting] calls the embedder once, then the
    index at most once and only with the vector the embedder returned,
    then the chain at most once and only with the context built from the
    matches and the transcript of the history as it was before the
    question: there is no second attempt at any of them. *)
Theorem chatting_calls_each_service_at_most_once :
  forall (Vector : Type) (env : Env Vector) (q : string) (s : State Vector),
    exists evs,
      trace (chatting env q s) = trace s ++ evs
      /\ serviceCalls evs = expectedCalls env q (conversationHistory s)
      /\ 1 <= length (serviceCalls evs) <= 3.
Proof.
  intros Vector env q s.
  destruct (chatting_added_calls env q s) as (evs & Htrace & Hcalls).
  exists evs. split; [exact Htrace |]. split; [exact Hcalls |].
  rewrite Hcalls. unfold expectedCalls.
  destruct (embedQuery env q) as [v | e]; [| cbn; lia].
  destruct (indexQuery env (TOP_K_RESULTS env) v) as [r | e]; [| cbn; lia].
  destruct (matches r) as [ms |]; [| cbn; lia].
  destruct (Js.truthy (buildContext ms)); cbn; lia.
Qed.

(** ** When the chain is invoked *)

Section ChainInvocation.

Lemma chainInvocations_serviceCalls {Vector} (evs : list (Event Vector)) :
  chainInvocations (serviceCalls evs) = chainInvocations evs.
Proof.
  induction evs as [| ev evs IH]; [reflexivity |].
  destruct ev; cbn; now rewrite <- IH.
Qed.

Lemma truthy_separatedBy_cons (sep : string) (c : ascii) (t : string)
  (xs : list string) :
  Js.truthy (separatedBy sep (String c t :: xs)) = true.
Proof. destruct xs; reflexivity. Qed.

Lemma truthy_buildContext (ms : list SearchMatch) :
  Js.truthy (buildContext ms) = negb (forallb hasNoText ms).
Proof.
  rewrite buildContext_separatedBy.
  induction ms as [| m rest IH]; [reflexivity |].
  cbn [chunkTexts forallb].
  destruct m as [[[[[| c t] |]] |]]; cbn [metadata text hasNoText Js.isEmpty andb];
    try exact IH.
  now rewrite truthy_separatedBy_cons.
Qed.

End ChainInvocation.

(** X2.  When the embedder and the index return, the chain is invoked
    exactly when at least one match carries a non-empty text, and then
    once; matches without metadata, without [text] or with an empty [text]
    do not count. *)
Theorem chain_invoked_iff_some_match_has_text :
  forall (Vector : Type) (env : Env Vector) (q : string) (s : State Vector)
    (v : Vector) (r : SearchResults) (ms : list SearchMatch),
    embedQuery env q = Normal v ->
    indexQuery env (TOP_K_RESULTS env) v = Normal r ->
    matches r = Some ms ->
    Js.truthy (buildContext ms) = negb (forallb hasNoText ms)
    /\ chainInvocations (trace (chatting env q s))
       = chainInvocations (trace s)
         ++ (if forallb hasNoText ms then []
             else [mkInput (buildContext ms) q
                     (formatHistory (conversationHistory s))]).
Proof.
  intros Vector env q s v r ms He Hq Hm.
  split; [apply truthy_buildContext |].
  destruct (chatting_added_calls env q s) as (evs & -> & Hcalls).
  rewrite chainInvocations_app, <- (chainInvocations_serviceCalls evs), Hcalls.
  unfold expectedCalls. rewrite He, Hq, Hm, truthy_buildContext.
  destruct (forallb hasNoText ms); reflexivity.
Qed.

Lemma chain_invoked_iff_some_match_has_text_witness :
  let ms := [Sample.noMetadata; Sample.chunk EmptyString; Sample.chunk "text"] in
  chainInvocations
    (trace (chatting (Sample.env (Some ms)) "What is this?" Sample.start))
  = [mkInput "text" "What is this?" NO_HISTORY].
Proof.
  exact (proj2 (@chain_invoked_iff_some_match_has_text Sample.Vector
                  (Sample.env (Some [Sample.noMetadata; Sample.chunk EmptyString;
                                     Sample.chunk "text"]))
                  "What is this?" Sample.start [1; 2; 3]
                  (mkResults (Some [Sample.noMetadata; Sample.chunk EmptyString;
                                    Sample.chunk "text"]))
                  [Sample.noMetadata; Sample.chunk EmptyString; Sample.chunk "text"]
                  eq_refl eq_refl eq_refl)).
Defined.

(** X3.  When the response of the index has no [matches], reading its
    length throws before the test for absent matches is reached: the
    question ends in the [catch] with an error message, the message about
    relevant documents is not logged, the chain is not invoked and the
    history is as before. *)
Theorem absent_matches_end_in_catch :
  forall (Vector : Type) (env : Env Vector) (q : string) (s : State Vector)
    (v : Vector) (r : SearchResults),
    embedQuery env q = Normal v ->
    indexQuery env (TOP_K_RESULTS env) v = Normal r ->
    matches r = None ->
    exists evs,
      trace (chatting env q s)
      = trace s ++ evs
          ++ [Log (MsgErrorDuringChatting (message LENGTH_OF_UNDEFINED))]
      /\ ~ In (Log MsgNoRelevantDocuments) evs
      /\ chainInvocations evs = []
      /\ conversationHistory (chatting env q s) = conversationHistory s.
Proof.
  intros Vector env q s v r He Hq Hm.
  erewrite chatting_matches_absent by eassumption.
  exists (searchEvents env q v). cbn [trace conversationHistory].
  split; [reflexivity |]. split; [| split; reflexivity].
  intros Hin. cbn in Hin.
  repeat (destruct Hin as [Hin | Hin]; [discriminate Hin |]). exact Hin.
Qed.

Lemma absent_matches_end_in_catch_witness :
  exists evs,
    trace (chatting (Sample.env None) "What is this?" Sample.start)
    = evs ++ [Log (MsgErrorDuringChatting (message LENGTH_OF_UNDEFINED))]
    /\ ~ In (Log MsgNoRelevantDocuments) evs
    /\ chainInvocations evs = []
    /\ conversationHistory (chatting (Sample.env None) "What is this?" Sample.start)
       = [].
Proof.
  exact (@absent_matches_end_in_catch Sample.Vector (Sample.env None)
           "What is this?" Sample.start [1; 2; 3] (mkResults None)
           eq_refl eq_refl eq_refl).
Defined.

(** ** What the transcript shows *)

Section TranscriptContent.

Implicit Types (h : list ConversationTurn) (t : ConversationTurn).

Lemma append_assoc (a b c : string) :
  ((a ++ b) ++ c)%string = (a ++ b ++ c)%string.
Proof. induction a as [| x a IH]; cbn; [reflexivity | now rewrite IH]. Qed.

Lemma mapiFrom_restamp (ts : string) h (i : nat) :
  Js.mapiFrom formatEntry i (map (restamp ts) h) = Js.mapiFrom formatEntry i h.
Proof.
  revert i; induction h as [| t rest IH]; intros i; [reflexivity |].
  cbn [map Js.mapiFrom]. now rewrite IH.
Qed.

Lemma transcriptEntry_append (n : nat) (q a ts tail : string) :
  transcriptEntry n (mkTurn q (a ++ tail) ts)
  = (transcriptEntry n (mkTurn q a ts) ++ tail)%string.
Proof.
  unfold transcriptEntry. cbn [question answer].
  now rewrite !append_assoc.
Qed.

Lemma numberedTranscript_forged (n : nat) h (q a ts ts' : string) t :
  numberedTranscript n
    (h ++ [mkTurn q (a ++ Js.nl ++ Js.nl
                       ++ transcriptEntry (S (n + length h)) t) ts])
  = numberedTranscript n (h ++ [mkTurn q a ts'; t]).
Proof.
  revert n; induction h as [| x rest IH]; intros n.
  - cbn [app length numberedTranscript]. rewrite Nat.add_0_r.
    rewrite transcriptEntry_append. reflexivity.
  - cbn [app length]. specialize (IH (S n)).
    replace (S n + length rest) with (n + S (length rest)) in IH by lia.
    destruct rest as [| y rest]; cbn [app numberedTranscript] in IH |- *;
      now rewrite IH.
Qed.

End TranscriptContent.

(** X4.  The time stamp of a turn is stored but never rendered: buffers
    that differ only in time stamps have the same transcript, so neither
    the [history] command nor the prompt depends on the clock. *)
Theorem formatHistory_ignores_timestamps :
  forall (ts : string) (h : list ConversationTurn),
    formatHistory (map (restamp ts) h) = formatHistory h.
Proof.
  intros ts h. unfold formatHistory, Js.mapi.
  now rewrite length_map, mapiFrom_restamp.
Qed.

(** X5.  The transcript does not escape what it renders: a last turn
    whose answer goes on with a blank line and the text of one more entry
    gives the same transcript as the buffer with that entry as a further
    turn.  [formatHistory] is therefore not injective. *)
Theorem formatHistory_does_not_escape :
  forall (h : list ConversationTurn) (q a ts ts' : string)
    (t : ConversationTurn),
    formatHistory
      (h ++ [mkTurn q (a ++ Js.nl ++ Js.nl
                         ++ transcriptEntry (length h + 2) t) ts])
    = formatHistory (h ++ [mkTurn q a ts'; t])
    /\ h ++ [mkTurn q (a ++ Js.nl ++ Js.nl
                         ++ transcriptEntry (length h + 2) t) ts]
       <> h ++ [mkTurn q a ts'; t].
Proof.
  intros h q a ts ts' t. split.
  - rewrite !formatHistory_nonempty by (destruct h; discriminate).
    replace (length h + 2) with (S (1 + length h)) by lia.
    apply numberedTranscript_forged.
  - intros Heq. apply (f_equal (@length _)) in Heq.
    rewrite !length_app in Heq. cbn in Heq. lia.
Qed.

(** ** The loop of [main] *)

Section MainLoop.

Variable Vector : Type.
Implicit Types (env : Env Vector) (s : State Vector) (line : string)
  (inputs : list (Env Vector * string)).

Lemma isQuestion_false line :
  isQuestion line = false ->
  isReserved line = true \/ Js.allWhiteSpace line = true.
Proof.
  unfold isQuestion.
  destruct (isReserved line), (Js.allWhiteSpace line); cbn; auto.
Qed.

Lemma loopBody_question env line s :
  isQuestion line = true ->
  loopBody env line s = (Continue, chatting env line s).
Proof.
  unfold isQuestion. intros H. apply andb_true_iff in H as [Hres Hws].
  apply negb_true_iff in Hres, Hws.
  now rewrite loopBody_not_reserved, Hws.
Qed.

Lemma loopBody_flow env line s :
  fst (loopBody env line s)
  = if (Js.toLowerCase line =? "exit")%string then Break else Continue.
Proof.
  unfold loopBody.
  destruct (Js.toLowerCase line =? "exit")%string; [reflexivity |].
  destruct (Js.toLowerCase line =? "history")%string; [reflexivity |].
  destruct (Js.toLowerCase line =? "clear")%string; [reflexivity |].
  destruct (Js.truthy (Js.trim line)); reflexivity.
Qed.

(** What a line that is not a question leaves of the state. *)
Lemma loopBody_not_question env line s :
  isQuestion line = false ->
  retrievals (trace (snd (loopBody env line s))) = retrievals (trace s)
  /\ serviceCalls (trace (snd (loopBody env line s))) = serviceCalls (trace s)
  /\ (conversationHistory (snd (loopBody env line s)) = conversationHistory s
      \/ conversationHistory (snd (loopBody env line s)) = []).
Proof.
  intros Hq. apply isQuestion_false in Hq as [Hres | Hws].
  - apply isReserved_iff in Hres as [H | [H | H]].
    + rewrite loopBody_exit by assumption. cbn [snd record trace conversationHistory].
      rewrite retrievals_app, serviceCalls_app. cbn.
      rewrite Nat.add_0_r, app_nil_r. auto.
    + rewrite loopBody_history by assumption. cbn [snd trace conversationHistory].
      rewrite retrievals_app, serviceCalls_app. cbn.
      rewrite Nat.add_0_r, app_nil_r. auto.
    + rewrite loopBody_clear by assumption. cbn [snd trace conversationHistory].
      rewrite retrievals_app, serviceCalls_app. cbn.
      rewrite Nat.add_0_r, app_nil_r. auto.
  - rewrite loopBody_blank by assumption. auto.
Qed.

Lemma chatting_chain_count env q s :
  length (chainInvocations (trace (chatting env q s)))
  <= S (length (chainInvocations (trace s))).
Proof.
  destruct (chatting_added_calls env q s) as (evs & -> & Hcalls).
  rewrite chainInvocations_app, length_app,
    <- (chainInvocations_serviceCalls evs), Hcalls.
  unfold expectedCalls.
  destruct (embedQuery env q) as [v | e]; [| cbn; lia].
  destruct (indexQuery env (TOP_K_RESULTS env) v) as [r | e]; [| cbn; lia].
  destruct (matches r) as [ms |]; [| cbn; lia].
  destruct (Js.truthy (buildContext ms)); cbn; lia.
Qed.

Lemma chainInvocations_not_question env line s :
  isQuestion line = false ->
  chainInvocations (trace (snd (loopBody env line s)))
  = chainInvocations (trace s).
Proof.
  intros Hq. destruct (@loopBody_not_question env line s Hq) as (_ & Hcalls & _).
  now rewrite <- chainInvocations_serviceCalls, Hcalls,
    chainInvocations_serviceCalls.
Qed.

(** One line: at most one retrieval, and no chain call without one. *)
Lemma loopBody_counts env line s :
  let s' := snd (loopBody env line s) in
  retrievals (trace s') <= S (retrievals (trace s))
  /\ length (chainInvocations (trace s')) + retrievals (trace s)
     <= length (chainInvocations (trace s)) + retrievals (trace s').
Proof.
  cbv zeta. destruct (isQuestion line) eqn:Hq.
  - rewrite loopBody_question by assumption. cbn [snd].
    rewrite chatting_retrievals.
    pose proof (chatting_chain_count env line s). lia.
  - rewrite chainInvocations_not_question by assumption.
    destruct (@loopBody_not_question env line s Hq) as (-> & _). lia.
Qed.

Lemma record_readLine_counts line s :
  retrievals (trace (record (ReadLine line) s)) = retrievals (trace s)
  /\ chainInvocations (trace (record (ReadLine line) s))
     = chainInvocations (trace s).
Proof.
  cbn [record trace]. rewrite retrievals_app, chainInvocations_app. cbn.
  now rewrite Nat.add_0_r, app_nil_r.
Qed.

Lemma mainLoop_counts inputs s :
  retrievals (trace (mainLoop inputs s)) <= retrievals (trace s) + length inputs
  /\ length (chainInvocations (trace (mainLoop inputs s))) + retrievals (trace s)
     <= length (chainInvocations (trace s)) + retrievals (trace (mainLoop inputs s)).
Proof.
  revert s; induction inputs as [| [env line] rest IH]; intros s;
    [cbn; lia |].
  cbn [mainLoop length].
  destruct (record_readLine_counts line s) as [Hr Hc].
  pose proof (loopBody_counts env line (record (ReadLine line) s)) as Hstep.
  cbv zeta in Hstep. rewrite Hr, Hc in Hstep.
  destruct (loopBody env line (record (ReadLine line) s)) as [[|] s1];
    cbn [snd] in Hstep.
  - specialize (IH s1). lia.
  - lia.
Qed.

Lemma mainLoop_app inputs (more : list (Env Vector * string)) s :
  hasExit inputs = false ->
  mainLoop (inputs ++ more) s = mainLoop more (mainLoop inputs s).
Proof.
  revert s; induction inputs as [| [env line] rest IH]; intros s Hexit;
    [reflexivity |].
  cbn [hasExit] in Hexit. apply orb_false_iff in Hexit as [Hline Hrest].
  cbn [app mainLoop].
  pose proof (loopBody_flow env line (record (ReadLine line) s)) as Hflow.
  rewrite Hline in Hflow.
  destruct (loopBody env line (record (ReadLine line) s)) as [[|] s1];
    cbn [fst] in Hflow; [now apply IH | discriminate].
Qed.

Lemma mainLoop_after_exit inputs (more : list (Env Vector * string)) s :
  hasExit inputs = true ->
  mainLoop (inputs ++ more) s = mainLoop inputs s.
Proof.
  revert s; induction inputs as [| [env line] rest IH]; intros s Hexit;
    [discriminate |].
  cbn [hasExit] in Hexit. cbn [app mainLoop].
  pose proof (loopBody_flow env line (record (ReadLine line) s)) as Hflow.
  destruct (loopBody env line (record (ReadLine line) s)) as [[|] s1];
    cbn [fst] in Hflow; [| reflexivity].
  destruct (Js.toLowerCase line =? "exit")%string; [discriminate |].
  now apply IH.
Qed.





End MainLoop.

Section MainRuns.

Variable Vector : Type.
Implicit Types (env : Env Vector) (s : State Vector) (line : string)
  (inputs : list (Env Vector * string)).

Lemma loopBody_retrievals env line s :
  retrievals (trace (snd (loopBody env line s)))
  = retrievals (trace s) + (if isQuestion line then 1 else 0).
Proof.
  destruct (isQuestion line) eqn:Hq.
  - rewrite loopBody_question by assumption. cbn [snd].
    rewrite chatting_retrievals. lia.
  - destruct (@loopBody_not_question Vector env line s Hq) as (-> & _). lia.
Qed.

Lemma mainLoop_retrievals inputs s :
  retrievals (trace (mainLoop inputs s))
  <= retrievals (trace s)
     + length (filter (fun x => isQuestion (snd x)) inputs).
Proof.
  revert s; induction inputs as [| [env line] rest IH]; intros s;
    [cbn; lia |].
  cbn [mainLoop filter snd].
  destruct (record_readLine_counts line s) as [Hr _].
  pose proof (loopBody_retrievals env line (record (ReadLine line) s)) as Hstep.
  rewrite Hr in Hstep.
  destruct (loopBody env line (record (ReadLine line) s)) as [[|] s1];
    cbn [snd] in Hstep.
  - specialize (IH s1). destruct (isQuestion line); cbn [length]; lia.
  - destruct (isQuestion line); cbn [length]; lia.
Qed.

End MainRuns.

(** X6.  The loop is left exactly on [exit]; a line is handed to
    [chatting], whole and once, exactly when it is neither a reserved
    command nor blank, and otherwise [chatting] is not entered. *)
Theorem chatting_entered_iff_question :
  forall (Vector : Type) (env : Env Vector) (line : string) (s : State Vector),
    (fst (loopBody env line s) = Break <-> Js.toLowerCase line = "exit"%string)
    /\ retrievals (trace (snd (loopBody env line s)))
       = retrievals (trace s) + (if isQuestion line then 1 else 0)
    /\ (if isQuestion line
        then snd (loopBody env line s) = chatting env line s
        else serviceCalls (trace (snd (loopBody env line s)))
             = serviceCalls (trace s)).
Proof.
  intros Vector env line s. split; [| split].
  - rewrite loopBody_flow.
    destruct (Js.toLowerCase line =? "exit")%string eqn:Hexit.
    + apply String.eqb_eq in Hexit. tauto.
    + apply String.eqb_neq in Hexit. split; [discriminate | contradiction].
  - apply loopBody_retrievals.
  - destruct (isQuestion line) eqn:Hq.
    + now rewrite loopBody_question.
    + now destruct (@loopBody_not_question Vector env line s Hq) as (_ & H & _).
Qed.

(** X7.  Once a line is [exit] (in any letter case) the run is over: the
    lines after it are neither read nor served, whatever they are. *)
Theorem input_after_exit_is_ignored :
  forall (Vector : Type) (inputs more : list (Env Vector * string)),
    hasExit inputs = true ->
    main (inputs ++ more) = main inputs.
Proof.
  intros Vector inputs more Hexit. unfold main.
  now apply mainLoop_after_exit.
Qed.

Lemma input_after_exit_is_ignored_witness :
  main ([(Sample.env None, "history"); (Sample.env None, "EXIT")]
        ++ [(Sample.env (Some [Sample.chunk "a"]), "What is this?")])
  = main [(Sample.env None, "history"); (Sample.env None, "EXIT")].
Proof.
  exact (@input_after_exit_is_ignored Sample.Vector
           [(Sample.env None, "history"); (Sample.env None, "EXIT")]
           [(Sample.env (Some [Sample.chunk "a"]), "What is this?")]
           eq_refl).
Defined.

(** X8.  As long as no line is [exit], serving a sequence of lines and
    then a second sequence is serving the second from the state the first
    one leaves: the history and the trace are all that is carried from one
    line to the next. *)
Theorem runs_compose :
  forall (Vector : Type) (inputs more : list (Env Vector * string))
    (s : State Vector),
    hasExit inputs = false ->
    mainLoop (inputs ++ more) s = mainLoop more (mainLoop inputs s).
Proof.
  intros Vector inputs more s Hexit. now apply mainLoop_app.
Qed.

Lemma runs_compose_witness :
  mainLoop ([(Sample.env (Some [Sample.chunk "a"]), "What is this?")]
            ++ [(Sample.env None, "history")]) Sample.start
  = mainLoop [(Sample.env None, "history")]
      (mainLoop [(Sample.env (Some [Sample.chunk "a"]), "What is this?")]
         Sample.start).
Proof.
  exact (@runs_compose Sample.Vector
           [(Sample.env (Some [Sample.chunk "a"]), "What is this?")]
           [(Sample.env None, "history")] Sample.start eq_refl).
Defined.

(** X9.  In every run the chain is invoked at most once for each time
    [chatting] is entered, and [chatting] is entered at most once for
    each line read that is a question: commands and blank lines cost no
    call of the chat model. *)
Theorem at_most_one_chain_call_per_question :
  forall (Vector : Type) (inputs : list (Env Vector * string)),
    length (chainInvocations (trace (main inputs)))
    <= retrievals (trace (main inputs))
    /\ retrievals (trace (main inputs))
       <= length (filter (fun x => isQuestion (snd x)) inputs)
    /\ length (filter (fun x => isQuestion (snd x)) inputs) <= length inputs.
Proof.
  intros Vector inputs. unfold main.
  set (s0 := record (Log MsgUsage) (record (Log MsgReady) (initialState Vector))).
  destruct (mainLoop_counts inputs s0) as [_ Hchain].
  pose proof (mainLoop_retrievals inputs s0) as Hretr.
  change (retrievals (trace s0)) with 0 in *.
  change (length (chainInvocations (trace s0))) with 0 in *.
  split; [lia |]. split; [lia | apply filter_length_le].
Qed.

(** X10.  [clear] really forgets: the next question that is answered is
    sent to the chain with the transcript of an empty history, and the
    buffer then holds that one turn only. *)
Theorem question_after_clear_has_no_history :
  forall (Vector : Type) (env env' : Env Vector) (line q a : string)
    (s : State Vector),
    Js.toLowerCase line = "clear"%string ->
    Answers env' q [] a ->
    let s' := chatting env' q (snd (loopBody env line s)) in
    conversationHistory s' = [mkTurn q a (now env')]
    /\ exists context,
        chainInvocations (trace s')
        = chainInvocations (trace s)
          ++ [mkInput context q "No previous conversation."].
Proof.
  intros Vector env env' line q a s Hclear
    (v & r & ms & He & Hq & Hm & Hctx & Hmodel) s'. subst s'.
  rewrite loopBody_clear by assumption. cbn [snd].
  erewrite chatting_answers by eassumption.
  cbn [conversationHistory trace]. split; [reflexivity |].
  exists (buildContext ms). rewrite !chainInvocations_app. cbn.
  now rewrite app_nil_r.
Qed.

Lemma question_after_clear_has_no_history_witness :
  conversationHistory
    (chatting (Sample.env (Some [Sample.chunk "a"])) "What is this?"
       (snd (loopBody (Sample.env None) "Clear"
               (mkState [mkTurn "q" "a" Sample.clock] []))))
  = [mkTurn "What is this?" "An answer." Sample.clock].
Proof.
  refine (proj1 (@question_after_clear_has_no_history Sample.Vector
                   (Sample.env None) (Sample.env (Some [Sample.chunk "a"]))
                   "Clear" "What is this?" "An answer."
                   (mkState [mkTurn "q" "a" Sample.clock] []) eq_refl _)).
  exists [1; 2; 3], (mkResults (Some [Sample.chunk "a"])), [Sample.chunk "a"].
  repeat split; reflexivity.
Defined.

Section AnsweredQuestions.

Variable Vector : Type.


End AnsweredQuestions.


(** ** The upload phase *)

Section UploadPhase.

Variable Doc : Type.
Implicit Types (u : UploadEnv Doc) (e : JsError).

(** Decides membership of a concrete list of upload events. *)
Ltac not_in_events H :=
  cbn in H; repeat (destruct H as [H | H]; [discriminate H |]); exact H.

Lemma uploadPhase_raises u e :
  UploadRaises u e ->
  exists evs,
    uploadPhase u
    = (evs ++ [ULog (MsgUploadError (message e)); ULog (MsgFullError e)], Some 1)
    /\ ~ In (ULog MsgUploadComplete) evs.
Proof.
  intros [Hflag [Hload | [(rawDocs & Hload & Hsplit)
                        | (rawDocs & chunkedDocs & Hload & Hsplit & Hstore)]]];
    unfold uploadPhase; rewrite Hflag, Hload; cbv zeta.
  - eexists; split; [reflexivity |]. intros Hin. not_in_events Hin.
  - rewrite Hsplit. eexists; split; [reflexivity |].
    intros Hin. not_in_events Hin.
  - rewrite Hsplit, Hstore. eexists; split; [reflexivity |].
    intros Hin. not_in_events Hin.
Qed.

Lemma uploadPhase_exit u (code : nat) :
  snd (uploadPhase u) = Some code ->
  code = 1 /\ exists e, UploadRaises u e.
Proof.
  unfold uploadPhase, UploadRaises.
  destruct (SHOULD_UPLOAD u); [| discriminate].
  destruct (load u PDF_PATH) as [rawDocs | e] eqn:Hload; cbv zeta.
  2:{ cbn. intros [= <-]. split; [reflexivity |]. exists e. auto. }
  destruct (splitDocuments u CHUNK_SIZE CHUNK_OVERLAP rawDocs)
    as [chunkedDocs | e] eqn:Hsplit.
  2:{ cbn. intros [= <-]. split; [reflexivity |]. exists e.
      split; [reflexivity |]. right. left. now exists rawDocs. }
  destruct (fromDocuments u chunkedDocs 5) as [[] | e] eqn:Hstore.
  - discriminate.
  - cbn. intros [= <-]. split; [reflexivity |]. exists e.
    split; [reflexivity |]. right. right. now exists rawDocs, chunkedDocs.
Qed.

End UploadPhase.

(** X12.  When the loader, the splitter or the store throws during the
    upload phase, the message of the error and then the error are logged,
    the process is ended with exit code 1, the upload is not reported as
    complete and [main] is not entered: no line is read.  Conversely the
    upload phase ends the process only in that case, and always with
    code 1. *)
Theorem upload_failure_exits_with_1 :
  (forall (Doc Vector : Type) (u : UploadEnv Doc) (e : JsError)
     (inputs : list (Env Vector * string)),
      UploadRaises u e ->
      exists evs,
        program u inputs
        = mkRun
            (evs ++ [ULog (MsgUploadError (message e)); ULog (MsgFullError e)])
            (Some 1) None
        /\ ~ In (ULog MsgUploadComplete) evs)
  /\ (forall (Doc Vector : Type) (u : UploadEnv Doc)
        (inputs : list (Env Vector * string)) (code : nat),
         exitCode (program u inputs) = Some code ->
         code = 1 /\ chat (program u inputs) = None
         /\ exists e, UploadRaises u e).
Proof.
  split.
  - intros Doc Vector u e inputs Hraises.
    destruct (uploadPhase_raises Hraises) as (evs & Hphase & Hnot).
    exists evs. split; [| exact Hnot]. unfold program. now rewrite Hphase.
  - intros Doc Vector u inputs code. unfold program.
    destruct (uploadPhase u) as [evs [c |]] eqn:Hphase; cbn; [| discriminate].
    intros [= ->].
    destruct (@uploadPhase_exit Doc u code) as [-> He];
      [now rewrite Hphase | auto].
Qed.

Lemma upload_failure_exits_with_1_witness :
  UploadRaises SampleUpload.envStoreDown Sample.failure
  /\ exitCode
       (program (Vector := Sample.Vector) SampleUpload.envStoreDown
          [(Sample.env None, "history")])
     = Some 1.
Proof.
  assert (H : UploadRaises SampleUpload.envStoreDown Sample.failure).
  { split; [reflexivity |]. right. right.
    exists SampleUpload.pages, SampleUpload.chunks. repeat split; reflexivity. }
  split; [exact H |].
  destruct (proj1 upload_failure_exits_with_1 SampleUpload.Doc Sample.Vector
              SampleUpload.envStoreDown Sample.failure
              [(Sample.env None, "history")] H) as (evs & Hrun & _).
  rewrite Hrun. reflexivity.
Defined.

(** X13.  The upload phase calls the loader, the splitter and the store
    at most once each and in that order: the loader on the fixed path, the
    splitter with sizes 1000 and 200 on exactly the pages the loader
    returned, the store with concurrency 5 on exactly the chunks the
    splitter returned; a step is not reached when the one before it threw.
    With the upload flag off none of them is called and [main] is entered
    at once. *)
Theorem upload_steps_run_in_order :
  forall (Doc Vector : Type) (u : UploadEnv Doc)
    (inputs : list (Env Vector * string)),
    uploadCalls (uploadTrace (program u inputs))
    = (if SHOULD_UPLOAD u then
         LoadPdf PDF_PATH ::
         match load u PDF_PATH with
         | Throw _ => []
         | Normal rawDocs =>
             SplitDocuments 1000 200 rawDocs ::
             match splitDocuments u 1000 200 rawDocs with
             | Throw _ => []
             | Normal chunkedDocs => [FromDocuments chunkedDocs 5]
             end
         end
       else [])
    /\ (SHOULD_UPLOAD u = false ->
        program u inputs
        = mkRun [ULog MsgSkipping; ULog MsgUsingExisting] None
            (Some (main inputs))).
Proof.
  intros Doc Vector u inputs. unfold program, uploadPhase. split.
  - destruct (SHOULD_UPLOAD u); [| reflexivity].
    destruct (load u PDF_PATH) as [rawDocs | e]; [| reflexivity].
    cbv zeta. change CHUNK_SIZE with 1000. change CHUNK_OVERLAP with 200.
    destruct (splitDocuments u 1000 200 rawDocs) as [chunkedDocs | e];
      [| reflexivity].
    destruct (fromDocuments u chunkedDocs 5) as [[] | e]; reflexivity.
  - intros ->. reflexivity.
Qed.

Lemma upload_steps_run_in_order_witness :
  program (Vector := Sample.Vector) (SampleUpload.env false)
    [(Sample.env None, "exit")]
  = mkRun [ULog MsgSkipping; ULog MsgUsingExisting] None
      (Some (main [(Sample.env None, "exit")])).
Proof.
  exact (proj2 (@upload_steps_run_in_order SampleUpload.Doc Sample.Vector
                  (SampleUpload.env false) [(Sample.env None, "exit")])
           eq_refl).
Defined.
